(** * A Flight SQL front end over an ADBC database: model and properties

    The development embeds the server of [cmd/server] (the type
    [DummyFlightSQLServer] and its request handlers) and proves properties
    of the handle registry, the schema probe, the metadata flattening loops
    and the result streams.

    The ADBC driver is an external collaborator.  It is represented by a
    record of functions ([Database]) answering the calls the server makes;
    every call the server makes is recorded, in program order, in a trace of
    [Event]s.  Go's [defer] is a combinator that appends the deferred call to
    the trace of the body it guards. *)

From Stdlib Require Import ZArith NArith Ascii String.
From Stdlib.Strings Require Import Byte.
From stdpp Require Import gmap strings list fin_maps.

Local Open Scope string_scope.
Local Open Scope list_scope.
Local Open Scope Z_scope.

(** ** Arrow data: schemas, columns, record batches *)

Inductive DataType : Type := Utf8 | Int64 | Float64.

#[global] Instance DataType_eq_dec : EqDecision DataType.
Proof. solve_decision. Defined.

Record Field : Type := mkField {
  field_name : string;
  field_type : DataType;
  field_nullable : bool
}.

Definition Schema : Type := list Field.

(** A column array.  Every array the server builds itself is a string array;
    the other variants only occur in batches coming from the driver. *)
Inductive Column : Type :=
| StringArray (vals : list string)
| Int64Array (vals : list Z)
| Float64Array (vals : list (Z * Z)).   (* mantissa and exponent *)

Definition column_len (c : Column) : Z :=
  match c with
  | StringArray v => Z.of_nat (length v)
  | Int64Array v => Z.of_nat (length v)
  | Float64Array v => Z.of_nat (length v)
  end.

Definition column_type (c : Column) : DataType :=
  match c with
  | StringArray _ => Utf8
  | Int64Array _ => Int64
  | Float64Array _ => Float64
  end.

(** [arrow.RecordBatch]: a schema, the column arrays, and the row count the
    batch declares ([NumRows()]). *)
Record RecordBatch : Type := mkRecordBatch {
  rb_schema : Schema;
  rb_columns : list Column;
  rb_rows : Z
}.

(** [flight.StreamChunk{Data: record}] *)
Record StreamChunk : Type := mkChunk { chunk_data : RecordBatch }.

(** The protocol schemas of [schema_ref] (Flight SQL): catalog name;
    catalog and schema name; catalog, schema, table name and table type. *)
Module schema_ref.
Definition Catalogs : Schema :=
  [mkField "catalog_name" Utf8 false].
Definition DBSchemas : Schema :=
  [mkField "catalog_name" Utf8 true; mkField "db_schema_name" Utf8 false].
Definition Tables : Schema :=
  [mkField "catalog_name" Utf8 true; mkField "db_schema_name" Utf8 true;
   mkField "table_name" Utf8 false; mkField "table_type" Utf8 false].
End schema_ref.

(** ** The nested result of [GetObjects], as the server reads it

    One batch of the introspection reader, in Arrow's list layout: column 0
    holds the catalog names; column 1 is a list array whose [Offsets()]
    delimit, per catalog row, a range of the shared schema struct array;
    field 1 of that struct is again a list array whose offsets delimit, per
    schema, a range of the shared table struct array. *)
Record ObjectsBatch : Type := mkObjectsBatch {
  ob_num_rows : Z;               (* rec.NumRows() *)
  ob_catalog_name : list string; (* rec.Column(0), a string array *)
  ob_schemas_offsets : list Z;   (* schemasCol.Offsets(), of rec.Column(1) *)
  ob_schema_name : list string;  (* schemasCol.ListValues().Field(0) *)
  ob_tables_offsets : list Z;    (* tablesCol.Offsets(), of Field(1) *)
  ob_table_name : list string;   (* tablesCol.ListValues().Field(0) *)
  ob_table_type : list string    (* tablesCol.ListValues().Field(1) *)
}.

Inductive ObjectDepth : Type :=
| ObjectDepthCatalogs | ObjectDepthDBSchemas | ObjectDepthTables.

(** ** Errors, outcomes and the trace of driver calls *)

(** A Go [error]: built by the server with [fmt.Errorf], or handed back by
    the driver, or by [crypto/rand]. *)
Inductive error : Type :=
| Errorf (msg : string)
| DriverError (msg : string)
| RandError (msg : string).

Inductive Event : Type :=
| DatabaseOpen
| ConnectionClose
| ConnectionNewStatement
| StatementClose
| StatementSetSqlQuery (q : string)
| StatementExecuteQuery (q : string)
| ConnectionGetObjects (depth : ObjectDepth)
    (catalog dbSchema tableName : option string) (tableTypes : list string)
| ReaderNext (more : bool)
| ReaderRelease
| ChanSend (c : StreamChunk)
| ChanClose.

(** How a call ends: it returns a value, returns an error, panics (a nil
    dereference, an index out of range), or never returns. *)
Inductive Outcome (A : Type) : Type :=
| Return (a : A)
| Fail (e : error)
| Panic (msg : string)
| Hang.
Arguments Return {A} a.
Arguments Fail {A} e.
Arguments Panic {A} msg.
Arguments Hang {A}.

Definition Call (A : Type) : Type := (list Event * Outcome A)%type.

Definition ret {A} (a : A) : Call A := ([], Return a).
Definition fail {A} (e : error) : Call A := ([], Fail e).
Definition panic {A} (msg : string) : Call A := ([], Panic msg).
Definition emit (ev : Event) : Call unit := ([ev], Return tt).

Definition bind {A B} (m : Call A) (k : A -> Call B) : Call B :=
  match m with
  | (t, Return a) => let '(t', r) := k a in (t ++ t', r)
  | (t, Fail e) => (t, Fail e)
  | (t, Panic msg) => (t, Panic msg)
  | (t, Hang) => (t, Hang)
  end.

(** [defer ev body]: the deferred call runs when the body is left, by a
    return, an error return or a panic; a body that never ends never runs
    it. *)
Definition defer {A} (ev : Event) (body : Call A) : Call A :=
  match body with
  | (t, Hang) => (t, Hang)
  | (t, r) => (t ++ [ev], r)
  end.

Declare Scope call_scope.
Delimit Scope call_scope with call.
Notation "x <- c1 ;; c2" := (bind c1 (fun x => c2))
  (at level 100, c1 at next level, right associativity) : call_scope.
Notation "c1 ;; c2" := (bind c1 (fun _ => c2))
  (at level 100, right associativity) : call_scope.
Local Open Scope call_scope.

Definition trace {A} (c : Call A) : list Event := fst c.
Definition outcome {A} (c : Call A) : Outcome A := snd c.

(** ** The driver *)

(** [array.RecordReader] of a statement result: its schema and the batches
    it will yield. *)
Record RecordReader : Type := mkReader {
  rd_schema : Schema;
  rd_batches : list RecordBatch
}.

(** The answers of the driver to the calls of the server.  [None] and
    [inr] mean success; the string is the driver's error message.  A
    statement executes the text last given to [SetSqlQuery]. *)
Record Database : Type := mkDatabase {
  db_Open : option string;
  conn_NewStatement : option string;
  stmt_SetSqlQuery : string -> option string;
  stmt_ExecuteQuery : string -> string + RecordReader;
  conn_GetObjects : ObjectDepth -> option string -> option string ->
                    option string -> list string -> string + list ObjectsBatch
}.

Definition driver_call (ev : Event) (answer : option string) : Call unit :=
  emit ev ;;
  match answer with
  | None => ret tt
  | Some msg => fail (DriverError msg)
  end.

Definition driver_query {A} (ev : Event) (answer : string + A) : Call A :=
  emit ev ;;
  match answer with
  | inr a => ret a
  | inl msg => fail (DriverError msg)
  end.

Definition Open (db : Database) : Call unit :=
  driver_call DatabaseOpen (db_Open db).
Definition NewStatement (db : Database) : Call unit :=
  driver_call ConnectionNewStatement (conn_NewStatement db).
Definition SetSqlQuery (db : Database) (q : string) : Call unit :=
  driver_call (StatementSetSqlQuery q) (stmt_SetSqlQuery db q).
Definition ExecuteQuery (db : Database) (q : string) : Call RecordReader :=
  driver_query (StatementExecuteQuery q) (stmt_ExecuteQuery db q).
Definition GetObjects (db : Database) (depth : ObjectDepth)
    (catalog dbSchema tableName : option string) (tableTypes : list string)
    : Call (list ObjectsBatch) :=
  driver_query (ConnectionGetObjects depth catalog dbSchema tableName tableTypes)
               (conn_GetObjects db depth catalog dbSchema tableName tableTypes).

(** ** The server *)

(** [DummyFlightSQLServer]: the database pointer (nil is [None]) and the map
    from statement handle to query text. *)
Record DummyFlightSQLServer : Type := mkServer {
  db : option Database;
  queries : gmap string string
}.

(** Tickets and descriptors of the transport layer.  A statement ticket is
    what [flightsql.CreateStatementQueryTicket] makes of the handle bytes and
    [GetStatementHandle] reads back; making it is taken to succeed. *)
Inductive Ticket : Type :=
| CommandTicket (cmd : string)
| StatementQueryTicket (handle : string).

Record FlightDescriptor : Type := mkDescriptor { desc_Cmd : string }.

(** [flight.SerializeSchema] *)
Inductive SerializedSchema : Type := SerializeSchema (s : Schema).

Record FlightInfo : Type := mkFlightInfo {
  fi_Ticket : Ticket;
  fi_FlightDescriptor : FlightDescriptor;
  fi_Schema : SerializedSchema
}.

Record SchemaResult : Type := mkSchemaResult { sr_Schema : SerializedSchema }.

(** [hex.EncodeToString] *)
Definition hextable : string := "0123456789abcdef".

Definition hexdigit (n : N) : ascii :=
  match String.get (N.to_nat n) hextable with
  | Some c => c
  | None => "0"%char
  end.

Fixpoint EncodeToString (src : list byte) : string :=
  match src with
  | [] => ""
  | v :: rest =>
      String (hexdigit (N.shiftr (Byte.to_N v) 4))
        (String (hexdigit (N.land (Byte.to_N v) 15)) (EncodeToString rest))
  end.

(** What [rand.Read(handleBytes)] did: filled the buffer, or failed. *)
Inductive RandRead : Type :=
| RandFilled (handleBytes : list byte)
| RandFailed (msg : string).

(** [fmt.Sprintf("SELECT * FROM (%s) WHERE 1=0", query)] *)
Definition schemaQuery (query : string) : string :=
  "SELECT * FROM (" +:+ query +:+ ") WHERE 1=0".

Definition not_initialized : error := Errorf "database is not initialized".

Definition unknown_handle (handle : string) : error :=
  Errorf ("unknown statement handle: " +:+ handle).

(** [GetFlightInfoStatement]: returns the server after the call and the
    call itself (trace and outcome). *)
Definition GetFlightInfoStatement (s : DummyFlightSQLServer) (rnd : RandRead)
    (query : string) (desc : FlightDescriptor)
    : DummyFlightSQLServer * Call FlightInfo :=
  match db s with
  | None => (s, fail not_initialized)
  | Some d =>
      match rnd with
      | RandFailed msg => (s, fail (RandError msg))
      | RandFilled handleBytes =>
          let handle := EncodeToString handleBytes in
          let s' := mkServer (db s) (<[handle := query]> (queries s)) in
          (s',
           Open d ;;
           defer ConnectionClose (
             NewStatement d ;;
             defer StatementClose (
               SetSqlQuery d (schemaQuery query) ;;
               reader <- ExecuteQuery d (schemaQuery query) ;;
               defer ReaderRelease (
                 let schema := rd_schema reader in
                 ret (mkFlightInfo (StatementQueryTicket handle) desc
                                   (SerializeSchema schema))))))
      end
  end.

(** [GetSchemaStatement] *)
Definition GetSchemaStatement (s : DummyFlightSQLServer)
    (query : string) (desc : FlightDescriptor)
    : DummyFlightSQLServer * Call SchemaResult :=
  match db s with
  | None => (s, fail not_initialized)
  | Some d =>
      (s,
       Open d ;;
       defer ConnectionClose (
         NewStatement d ;;
         defer StatementClose (
           SetSqlQuery d (schemaQuery query) ;;
           reader <- ExecuteQuery d (schemaQuery query) ;;
           defer ReaderRelease (
             let schema := rd_schema reader in
             ret (mkSchemaResult (SerializeSchema schema))))))
  end.

(** ** Result streams

    The streaming handlers start a goroutine

      [go func() { defer close(ch); defer reader.Release()
                   for reader.Next() { ...; ch <- chunk } }()]

    on an unbuffered channel.  A send completes only when the consumer
    receives.  [goroutine body batches recvs] is the run of that goroutine
    over a reader holding [batches] against a consumer that receives
    [recvs] times and then stops receiving; [body] builds the chunk of one
    batch and is [None] when it panics. *)

Inductive ProducerEnd : Type :=
| Finished          (* the loop ended, the deferred calls ran *)
| BlockedOnSend     (* parked for ever in [ch <- chunk] *)
| Crashed.          (* the body panicked *)

Record Run : Type := mkRun {
  run_events : list Event;
  run_received : list StreamChunk;
  run_end : ProducerEnd
}.

Fixpoint goroutine {In : Type} (body : In -> option StreamChunk)
    (batches : list In) (recvs : nat) : Run :=
  match batches with
  | [] => mkRun [ReaderNext false; ReaderRelease; ChanClose] [] Finished
  | rec :: rest =>
      match body rec with
      | None => mkRun [ReaderNext true; ReaderRelease; ChanClose] [] Crashed
      | Some chunk =>
          match recvs with
          | O => mkRun [ReaderNext true] [] BlockedOnSend
          | S n =>
              let r := goroutine body rest n in
              mkRun (ReaderNext true :: ChanSend chunk :: run_events r)
                    (chunk :: run_received r) (run_end r)
          end
      end
  end.

(** The receiving end of a channel fed by such a goroutine. *)
Definition Chan : Type := nat -> Run.

(** [DoGetStatement] *)
Definition DoGetStatement (s : DummyFlightSQLServer) (handle : string)
    : DummyFlightSQLServer * Call (Schema * Chan) :=
  match queries s !! handle with
  | None => (s, fail (unknown_handle handle))
  | Some query =>
      match db s with
      | None => (s, fail not_initialized)
      | Some d =>
          (s,
           Open d ;;
           defer ConnectionClose (
             NewStatement d ;;
             defer StatementClose (
               SetSqlQuery d query ;;
               reader <- ExecuteQuery d query ;;
               let schema := rd_schema reader in
               let ch := goroutine (fun rec => Some (mkChunk rec))
                                   (rd_batches reader) in
               ret (schema, ch))))
      end
  end.

(** ** Building batches *)

(** [array.NewRecordBatch(schema, cols, nrows)] (also [array.NewRecord]) of
    the Arrow library: a negative [nrows] stands for the length of the first
    column; the constructor panics when the number of columns differs from
    the number of fields, when a column is shorter than the row count, or
    when a column has not the type of its field.  The row count given is
    otherwise kept as it is. *)
Definition validate (schema : Schema) (cols : list Column) (rows : Z) : bool :=
  if (rows =? 0) && (Z.of_nat (length cols) =? 0) then true
  else
    (Nat.eqb (length cols) (length schema))
    && forallb (fun c => negb (column_len c <? rows)) cols
    && forallb (fun fc => bool_decide (field_type (fst fc) = column_type (snd fc)))
               (zip schema cols).

Definition NewRecordBatch (schema : Schema) (cols : list Column) (nrows : Z)
    : option RecordBatch :=
  let rows :=
    if nrows <? 0 then
      match cols with
      | [] => 0
      | c :: _ => column_len c
      end
    else nrows in
  if validate schema cols rows then Some (mkRecordBatch schema cols rows)
  else None.

(** A pure computation that may panic, run inside a call. *)
Definition must {A} (o : option A) : Call A :=
  match o with
  | Some a => ret a
  | None => panic "runtime error"
  end.

(** Indexing a slice or an array: out of range panics. *)
Definition slice_index {A} (l : list A) (i : Z) : option A :=
  if i <? 0 then None else l !! Z.to_nat i.

(** [for i := lo; i < hi; i++ { body }] over a loop state. *)
Fixpoint for_steps {S : Type} (body : Z -> S -> option S)
    (i : Z) (n : nat) (st : S) : option S :=
  match n with
  | O => Some st
  | S n' =>
      match body i st with
      | None => None
      | Some st' => for_steps body (i + 1) n' st'
      end
  end.

Definition for_range {S : Type} (lo hi : Z) (body : Z -> S -> option S)
    (st : S) : option S :=
  for_steps body lo (Z.to_nat (hi - lo)) st.

(** [builder.Append(v)] *)
Definition Append (builder : list string) (v : string) : list string :=
  builder ++ [v].

(** ** Metadata handlers *)

(** The [GetFlightInfo...] handlers of the metadata requests: they answer
    from the descriptor alone and never touch the database. *)
Definition GetFlightInfoCatalogs (s : DummyFlightSQLServer)
    (desc : FlightDescriptor) : DummyFlightSQLServer * Call FlightInfo :=
  (s, ret (mkFlightInfo (CommandTicket (desc_Cmd desc)) desc
                        (SerializeSchema schema_ref.Catalogs))).

Definition GetFlightInfoSchemas (s : DummyFlightSQLServer)
    (desc : FlightDescriptor) : DummyFlightSQLServer * Call FlightInfo :=
  (s, ret (mkFlightInfo (CommandTicket (desc_Cmd desc)) desc
                        (SerializeSchema schema_ref.DBSchemas))).

Definition GetFlightInfoTables (s : DummyFlightSQLServer)
    (desc : FlightDescriptor) : DummyFlightSQLServer * Call FlightInfo :=
  (s, ret (mkFlightInfo (CommandTicket (desc_Cmd desc)) desc
                        (SerializeSchema schema_ref.Tables))).

(** The loop of [DoGetCatalogs].  The channel has a buffer of one chunk and
    nobody receives before the handler returns: a send into the full buffer
    never completes. *)
Definition DoGetCatalogs_record (schema : Schema) (rec : ObjectsBatch)
    : option RecordBatch :=
  NewRecordBatch schema [StringArray (ob_catalog_name rec)] 0.

Fixpoint DoGetCatalogs_loop (schema : Schema) (batches : list ObjectsBatch)
    (buffered : list StreamChunk) : Call (list StreamChunk) :=
  match batches with
  | [] => emit (ReaderNext false) ;; ret buffered
  | rec :: rest =>
      emit (ReaderNext true) ;;
      record <- must (DoGetCatalogs_record schema rec) ;;
      if (length buffered <? 1)%nat then
        emit (ChanSend (mkChunk record)) ;;
        DoGetCatalogs_loop schema rest (buffered ++ [mkChunk record])
      else ([], Hang)
  end.

(** [DoGetCatalogs]: on success the schema and the content of the closed
    channel. *)
Definition DoGetCatalogs (s : DummyFlightSQLServer)
    : DummyFlightSQLServer * Call (Schema * list StreamChunk) :=
  let schema := schema_ref.Catalogs in
  match db s with
  | None => (s, fail not_initialized)
  | Some d =>
      (s,
       Open d ;;
       defer ConnectionClose (
         reader <- GetObjects d ObjectDepthCatalogs None None None [] ;;
         ch <- DoGetCatalogs_loop schema reader [] ;;
         emit ChanClose ;;
         ret (schema, ch)))
  end.

(** [flightsql.GetDBSchemas] and [flightsql.GetTables]: the filters of the
    request. *)
Record GetDBSchemas : Type := mkGetDBSchemas {
  schemas_GetCatalog : option string;
  schemas_GetDBSchemaFilterPattern : option string
}.

Record GetTables : Type := mkGetTables {
  GetCatalog : option string;
  GetDBSchemaFilterPattern : option string;
  GetTableNameFilterPattern : option string;
  GetTableTypes : list string
}.

(** The two builders of [DoGetDBSchemas]. *)
Record SchemaBuilders : Type := mkSchemaBuilders {
  sb_catalogName : list string;
  sb_dbSchemaName : list string
}.

(** The body of the goroutine of [DoGetDBSchemas] for one batch. *)
Definition DoGetDBSchemas_record (schema : Schema) (rec : ObjectsBatch)
    : option RecordBatch :=
  builders ←
    for_range 0 (ob_num_rows rec) (fun i b =>
      catalogName ← slice_index (ob_catalog_name rec) i;
      start ← slice_index (ob_schemas_offsets rec) i;
      end_ ← slice_index (ob_schemas_offsets rec) (i + 1);
      for_range start end_ (fun j b =>
        schemaName ← slice_index (ob_schema_name rec) j;
        Some (mkSchemaBuilders (Append (sb_catalogName b) catalogName)
                               (Append (sb_dbSchemaName b) schemaName))) b)
      (mkSchemaBuilders [] []);
  let cols := [StringArray (sb_catalogName builders);
               StringArray (sb_dbSchemaName builders)] in
  NewRecordBatch schema cols (Z.of_nat (length (sb_catalogName builders))).

(** [DoGetDBSchemas]: the database pointer is dereferenced unchecked. *)
Definition DoGetDBSchemas (s : DummyFlightSQLServer) (cmd : GetDBSchemas)
    : DummyFlightSQLServer * Call (Schema * Chan) :=
  let schema := schema_ref.DBSchemas in
  match db s with
  | None => (s, panic "invalid memory address or nil pointer dereference")
  | Some d =>
      (s,
       Open d ;;
       defer ConnectionClose (
         reader <- GetObjects d ObjectDepthDBSchemas (schemas_GetCatalog cmd)
                     (schemas_GetDBSchemaFilterPattern cmd) None [] ;;
         let ch := goroutine
                     (fun rec => mkChunk <$> DoGetDBSchemas_record schema rec)
                     reader in
         ret (schema, ch)))
  end.

(** The four builders of [DoGetTables]. *)
Record TableBuilders : Type := mkTableBuilders {
  tb_catalogName : list string;
  tb_dbSchemaName : list string;
  tb_tableName : list string;
  tb_tableType : list string
}.

(** The three nested loops of [DoGetTables] over one batch. *)
Definition DoGetTables_loops (rec : ObjectsBatch) : option TableBuilders :=
  for_range 0 (ob_num_rows rec) (fun i b =>
    catalogName ← slice_index (ob_catalog_name rec) i;
    schemaStart ← slice_index (ob_schemas_offsets rec) i;
    schemaEnd ← slice_index (ob_schemas_offsets rec) (i + 1);
    for_range schemaStart schemaEnd (fun j b =>
      schemaName ← slice_index (ob_schema_name rec) j;
      tableStart ← slice_index (ob_tables_offsets rec) j;
      tableEnd ← slice_index (ob_tables_offsets rec) (j + 1);
      for_range tableStart tableEnd (fun k b =>
        tableName ← slice_index (ob_table_name rec) k;
        tableType ← slice_index (ob_table_type rec) k;
        Some (mkTableBuilders (Append (tb_catalogName b) catalogName)
                              (Append (tb_dbSchemaName b) schemaName)
                              (Append (tb_tableName b) tableName)
                              (Append (tb_tableType b) tableType))) b) b)
    (mkTableBuilders [] [] [] []).

(** The body of the goroutine of [DoGetTables] for one batch. *)
Definition DoGetTables_record (schema : Schema) (rec : ObjectsBatch)
    : option RecordBatch :=
  builders ← DoGetTables_loops rec;
  let cols := [StringArray (tb_catalogName builders);
               StringArray (tb_dbSchemaName builders);
               StringArray (tb_tableName builders);
               StringArray (tb_tableType builders)] in
  NewRecordBatch schema cols (Z.of_nat (length (tb_catalogName builders))).

(** [DoGetTables]: the database pointer is dereferenced unchecked. *)
Definition DoGetTables (s : DummyFlightSQLServer) (cmd : GetTables)
    : DummyFlightSQLServer * Call (Schema * Chan) :=
  let schema := schema_ref.Tables in
  match db s with
  | None => (s, panic "invalid memory address or nil pointer dereference")
  | Some d =>
      (s,
       Open d ;;
       defer ConnectionClose (
         reader <- GetObjects d ObjectDepthTables (GetCatalog cmd)
                     (GetDBSchemaFilterPattern cmd)
                     (GetTableNameFilterPattern cmd) (GetTableTypes cmd) ;;
         let ch := goroutine
                     (fun rec => mkChunk <$> DoGetTables_record schema rec)
                     reader in
         ret (schema, ch)))
  end.

(** ** The object tree behind a batch of [GetObjects]

    The tree the driver reports: catalogs own schemas, schemas own tables.
    [layout] lays a tree out the way Arrow stores nested lists: the children
    of all parents in one shared array, parent [i] owning the positions from
    [offsets[i]] up to, not including, [offsets[i+1]]. *)
Record Table : Type := mkTable {
  table_name : string;
  table_type : string
}.

Record DBSchema : Type := mkDBSchema {
  db_schema_name : string;
  db_schema_tables : list Table
}.

Record Catalog : Type := mkCatalog {
  catalog_name : string;
  catalog_db_schemas : list DBSchema
}.

Definition ObjectTree : Type := list Catalog.

Fixpoint offsets_from (start : Z) (lens : list nat) : list Z :=
  match lens with
  | [] => [start]
  | n :: rest => start :: offsets_from (start + Z.of_nat n) rest
  end.

Definition all_schemas (t : ObjectTree) : list DBSchema :=
  flat_map catalog_db_schemas t.

Definition all_tables (schemas : list DBSchema) : list Table :=
  flat_map db_schema_tables schemas.

Definition layout (t : ObjectTree) : ObjectsBatch :=
  let schemas := all_schemas t in
  let tables := all_tables schemas in
  {| ob_num_rows := Z.of_nat (length t);
     ob_catalog_name := map catalog_name t;
     ob_schemas_offsets :=
       offsets_from 0 (map (fun c => length (catalog_db_schemas c)) t);
     ob_schema_name := map db_schema_name schemas;
     ob_tables_offsets :=
       offsets_from 0 (map (fun sch => length (db_schema_tables sch)) schemas);
     ob_table_name := map table_name tables;
     ob_table_type := map table_type tables |}.

(** A flat row at table depth, and the rows of a tree: one per table, with
    the names of the catalog and the schema the table sits under. *)
Record FlatRow : Type := mkFlatRow {
  row_catalog : string;
  row_schema : string;
  row_table : string;
  row_type : string
}.

Definition schema_rows (catalogName : string) (sch : DBSchema) : list FlatRow :=
  map (fun tb => mkFlatRow catalogName (db_schema_name sch)
                           (table_name tb) (table_type tb))
      (db_schema_tables sch).

Definition catalog_rows (c : Catalog) : list FlatRow :=
  flat_map (schema_rows (catalog_name c)) (catalog_db_schemas c).

Definition table_rows (t : ObjectTree) : list FlatRow :=
  flat_map catalog_rows t.

(** The number of tables of a tree: the sum over its catalogs of the sum
    over their schemas of the number of tables. *)
Definition table_count (t : ObjectTree) : nat :=
  sum_list_with
    (fun c => sum_list_with (fun sch => length (db_schema_tables sch))
                            (catalog_db_schemas c)) t.

(** The batch holding given flat rows, column by column. *)
Definition rows_batch (rows : list FlatRow) : RecordBatch :=
  mkRecordBatch schema_ref.Tables
    [StringArray (map row_catalog rows); StringArray (map row_schema rows);
     StringArray (map row_table rows); StringArray (map row_type rows)]
    (Z.of_nat (length rows)).

(** ** Requests

    The handlers the transport layer can invoke, and the server they leave
    behind. *)
Inductive Request : Type :=
| ReqGetFlightInfoCatalogs (desc : FlightDescriptor)
| ReqDoGetCatalogs
| ReqGetFlightInfoSchemas (desc : FlightDescriptor)
| ReqDoGetDBSchemas (cmd : GetDBSchemas)
| ReqGetFlightInfoStatement (rnd : RandRead) (query : string)
    (desc : FlightDescriptor)
| ReqGetSchemaStatement (query : string) (desc : FlightDescriptor)
| ReqDoGetStatement (handle : string)
| ReqGetFlightInfoTables (desc : FlightDescriptor)
| ReqDoGetTables (cmd : GetTables).

Definition serve (s : DummyFlightSQLServer) (r : Request)
    : DummyFlightSQLServer :=
  match r with
  | ReqGetFlightInfoCatalogs desc => fst (GetFlightInfoCatalogs s desc)
  | ReqDoGetCatalogs => fst (DoGetCatalogs s)
  | ReqGetFlightInfoSchemas desc => fst (GetFlightInfoSchemas s desc)
  | ReqDoGetDBSchemas cmd => fst (DoGetDBSchemas s cmd)
  | ReqGetFlightInfoStatement rnd query desc =>
      fst (GetFlightInfoStatement s rnd query desc)
  | ReqGetSchemaStatement query desc => fst (GetSchemaStatement s query desc)
  | ReqDoGetStatement handle => fst (DoGetStatement s handle)
  | ReqGetFlightInfoTables desc => fst (GetFlightInfoTables s desc)
  | ReqDoGetTables cmd => fst (DoGetTables s cmd)
  end.

Definition is_describe (r : Request) : bool :=
  match r with
  | ReqGetFlightInfoStatement _ _ _ => true
  | _ => false
  end.

(** Counting events of a kind in a trace. *)
Definition is_ReaderRelease (ev : Event) : bool :=
  match ev with ReaderRelease => true | _ => false end.
Definition is_StatementClose (ev : Event) : bool :=
  match ev with StatementClose => true | _ => false end.
Definition is_ConnectionClose (ev : Event) : bool :=
  match ev with ConnectionClose => true | _ => false end.
Definition is_ReaderNext (ev : Event) : bool :=
  match ev with ReaderNext _ => true | _ => false end.

Definition count (p : Event -> bool) (t : list Event) : nat :=
  length (filter (fun ev => p ev = true) t).

(** ** Example drivers and servers *)

Definition test_schema : Schema :=
  [mkField "id" Int64 true; mkField "name" Utf8 true].

Definition test_batch1 : RecordBatch :=
  mkRecordBatch test_schema
    [Int64Array [1; 2]; StringArray ["test1"; "test2"]] 2.

Definition test_batch2 : RecordBatch :=
  mkRecordBatch test_schema [Int64Array [3]; StringArray ["test3"]] 1.

Definition test_query : string := "SELECT id, name FROM test_table ORDER BY id".

Definition test_tree : ObjectTree :=
  [mkCatalog "main"
     [mkDBSchema "main" [mkTable "test_table" "table";
                         mkTable "test_view" "view"];
      mkDBSchema "empty_schema" []];
   mkCatalog "empty_catalog" [];
   mkCatalog "temp" [mkDBSchema "scratch" [mkTable "t" "table"]]].

(** A driver holding one table, [test_table], with three rows that it
    hands out in two batches. *)
Definition test_db : Database :=
  {| db_Open := None;
     conn_NewStatement := None;
     stmt_SetSqlQuery := fun _ => None;
     stmt_ExecuteQuery := fun q =>
       if String.eqb q test_query
       then inr (mkReader test_schema [test_batch1; test_batch2])
       else if String.eqb q (schemaQuery test_query)
       then inr (mkReader test_schema [])
       else inl "no such table";
     conn_GetObjects := fun _ _ _ _ _ => inr [layout test_tree] |}.

(** A driver that types a column by the values it reads: a result without
    rows has every column typed as an integer. *)
Definition untyped_schema : Schema :=
  [mkField "id" Int64 true; mkField "name" Int64 true].

Definition inferring_db : Database :=
  {| db_Open := None;
     conn_NewStatement := None;
     stmt_SetSqlQuery := fun _ => None;
     stmt_ExecuteQuery := fun q =>
       if String.eqb q test_query
       then inr (mkReader test_schema [test_batch1; test_batch2])
       else if String.eqb q (schemaQuery test_query)
       then inr (mkReader untyped_schema [])
       else inl "no such table";
     conn_GetObjects := fun _ _ _ _ _ => inr [layout test_tree] |}.

Definition test_server : DummyFlightSQLServer := mkServer (Some test_db) ∅.

Definition nil_server : DummyFlightSQLServer := mkServer None ∅.

Definition test_desc : FlightDescriptor := mkDescriptor "test-command".

Definition zero_bytes : list byte := repeat x00 16.

Definition zero_handle : string := "00000000000000000000000000000000".

(** ** The calls behind the statement handlers *)

(** The call [DoGetStatement] makes for a registered handle. *)
Definition execute_call (d : Database) (query : string) : Call (Schema * Chan) :=
  Open d ;;
  defer ConnectionClose (
    NewStatement d ;;
    defer StatementClose (
      SetSqlQuery d query ;;
      reader <- ExecuteQuery d query ;;
      ret (rd_schema reader,
           goroutine (fun rec => Some (mkChunk rec)) (rd_batches reader)))).

(** The probe both describing handlers run, with the value [result] they
    build from the schema. *)
Definition probe_call {A} (d : Database) (query : string)
    (result : Schema -> A) : Call A :=
  Open d ;;
  defer ConnectionClose (
    NewStatement d ;;
    defer StatementClose (
      SetSqlQuery d (schemaQuery query) ;;
      reader <- ExecuteQuery d (schemaQuery query) ;;
      defer ReaderRelease (ret (result (rd_schema reader))))).

Definition probe_trace (query : string) : list Event :=
  [DatabaseOpen; ConnectionNewStatement;
   StatementSetSqlQuery (schemaQuery query);
   StatementExecuteQuery (schemaQuery query);
   ReaderRelease; StatementClose; ConnectionClose].

(** A batch whose columns all have the length the batch declares. *)
Definition aligned (r : RecordBatch) : Prop :=
  Forall (fun c => column_len c = rb_rows r) (rb_columns r).

(** The events and chunks of a stream that delivered [chunks]. *)
Definition deliveries (chunks : list StreamChunk) : list Event :=
  flat_map (fun c => [ReaderNext true; ChanSend c]) chunks.

(** The server after [test_query] was described with the handle of sixteen
    zero bytes. *)
Definition described_server : DummyFlightSQLServer :=
  fst (GetFlightInfoStatement test_server (RandFilled zero_bytes)
         test_query test_desc).

(** The trace of a call of [DoGetStatement] in which the driver accepts
    every call. *)
Definition execute_trace (query : string) : list Event :=
  [DatabaseOpen; ConnectionNewStatement;
   StatementSetSqlQuery query; StatementExecuteQuery query;
   StatementClose; ConnectionClose].

Definition inferring_server : DummyFlightSQLServer :=
  mkServer (Some inferring_db) ∅.

(** ** The loops of [DoGetTables], body by body *)

Definition tables_body (rec : ObjectsBatch) (catalogName schemaName : string)
    (k : Z) (b : TableBuilders) : option TableBuilders :=
  tableName ← slice_index (ob_table_name rec) k;
  tableType ← slice_index (ob_table_type rec) k;
  Some (mkTableBuilders (Append (tb_catalogName b) catalogName)
                        (Append (tb_dbSchemaName b) schemaName)
                        (Append (tb_tableName b) tableName)
                        (Append (tb_tableType b) tableType)).

Definition schemas_body (rec : ObjectsBatch) (catalogName : string)
    (j : Z) (b : TableBuilders) : option TableBuilders :=
  schemaName ← slice_index (ob_schema_name rec) j;
  tableStart ← slice_index (ob_tables_offsets rec) j;
  tableEnd ← slice_index (ob_tables_offsets rec) (j + 1);
  for_range tableStart tableEnd (tables_body rec catalogName schemaName) b.

Definition catalogs_body (rec : ObjectsBatch)
    (i : Z) (b : TableBuilders) : option TableBuilders :=
  catalogName ← slice_index (ob_catalog_name rec) i;
  schemaStart ← slice_index (ob_schemas_offsets rec) i;
  schemaEnd ← slice_index (ob_schemas_offsets rec) (i + 1);
  for_range schemaStart schemaEnd (schemas_body rec catalogName) b.

(** Builders after the columns of [rows] were appended to them. *)
Definition extend (b : TableBuilders) (rows : list FlatRow) : TableBuilders :=
  mkTableBuilders (tb_catalogName b ++ map row_catalog rows)
                  (tb_dbSchemaName b ++ map row_schema rows)
                  (tb_tableName b ++ map row_table rows)
                  (tb_tableType b ++ map row_type rows).

(** The goroutine body of [DoGetTables]. *)
Definition DoGetTables_chunk (rec : ObjectsBatch) : option StreamChunk :=
  mkChunk <$> DoGetTables_record schema_ref.Tables rec.

(** ** Reading a tree back from a batch

    A batch is well formed when its offsets start at 0, never decrease and
    end at the length of the child array, with one offset more than there
    are parents.  [tree_of] cuts the child arrays at the offsets. *)
Fixpoint offsets_chain (lo : Z) (rest : list Z) (hi : Z) : bool :=
  match rest with
  | [] => lo =? hi
  | o :: rest' => (lo <=? o) && offsets_chain o rest' hi
  end.

Definition offsets_ok (offsets : list Z) (parents children : nat) : bool :=
  match offsets with
  | [] => false
  | o :: rest =>
      (o =? 0) && Nat.eqb (length rest) parents
      && offsets_chain 0 rest (Z.of_nat children)
  end.

Definition well_formed (rec : ObjectsBatch) : bool :=
  (ob_num_rows rec =? Z.of_nat (length (ob_catalog_name rec)))
  && offsets_ok (ob_schemas_offsets rec) (length (ob_catalog_name rec))
                (length (ob_schema_name rec))
  && offsets_ok (ob_tables_offsets rec) (length (ob_schema_name rec))
                (length (ob_table_name rec))
  && Nat.eqb (length (ob_table_type rec)) (length (ob_table_name rec)).

Definition segment {A : Type} (l : list A) (lo hi : Z) : list A :=
  take (Z.to_nat (hi - lo)) (drop (Z.to_nat lo) l).

Fixpoint segments_from {A : Type} (lo : Z) (rest : list Z) (l : list A)
    : list (list A) :=
  match rest with
  | [] => []
  | o :: rest' => segment l lo o :: segments_from o rest' l
  end.

Definition segments {A : Type} (offsets : list Z) (l : list A)
    : list (list A) :=
  match offsets with
  | [] => []
  | o :: rest => segments_from o rest l
  end.

Definition tree_of (rec : ObjectsBatch) : ObjectTree :=
  let tables := zip_with mkTable (ob_table_name rec) (ob_table_type rec) in
  let schemas := zip_with mkDBSchema (ob_schema_name rec)
                   (segments (ob_tables_offsets rec) tables) in
  zip_with mkCatalog (ob_catalog_name rec)
    (segments (ob_schemas_offsets rec) schemas).

(** ** Handles as text *)

Definition is_hex_digit (c : ascii) : bool :=
  existsb (Ascii.eqb c) (list_ascii_of_string hextable).

Fixpoint position_in (c : ascii) (s : string) (n : N) : option N :=
  match s with
  | EmptyString => None
  | String c' s' => if Ascii.eqb c c' then Some n else position_in c s' (n + 1)
  end.

Definition hex_value (c : ascii) : option N := position_in c hextable 0.

(** Reading the bytes back from a handle: two digits per byte. *)
Fixpoint decode_handle (h : string) : option (list byte) :=
  match h with
  | EmptyString => Some []
  | String c1 (String c2 rest) =>
      match hex_value c1, hex_value c2, decode_handle rest with
      | Some hi, Some lo, Some bs =>
          match Byte.of_N (16 * hi + lo) with
          | Some b => Some (b :: bs)
          | None => None
          end
      | _, _, _ => None
      end
  | String _ EmptyString => None
  end.

(** A description that draws the bytes of the handle [h]. *)
Definition redraws (h : string) (req : Request) : bool :=
  match req with
  | ReqGetFlightInfoStatement (RandFilled handleBytes) _ _ =>
      String.eqb (EncodeToString handleBytes) h
  | _ => false
  end.

Definition Outcome_map {A B : Type} (f : A -> B) (o : Outcome A) : Outcome B :=
  match o with
  | Return a => Return (f a)
  | Fail e => Fail e
  | Panic msg => Panic msg
  | Hang => Hang
  end.

Definition is_ChanSend (ev : Event) : bool :=
  match ev with ChanSend _ => true | _ => false end.
Definition is_ChanClose (ev : Event) : bool :=
  match ev with ChanClose => true | _ => false end.

(** ** What the driver granted

    Whether, by the answers of the driver, a handler working on [text]
    obtained a connection, a statement, a reader. *)
Definition opened (d : Database) : bool :=
  match db_Open d with None => true | Some _ => false end.

Definition has_statement (d : Database) : bool :=
  opened d && match conn_NewStatement d with None => true | Some _ => false end.

Definition has_reader (d : Database) (text : string) : bool :=
  has_statement d
  && match stmt_SetSqlQuery d text with None => true | Some _ => false end
  && match stmt_ExecuteQuery d text with inr _ => true | inl _ => false end.

Definition once (b : bool) : nat := if b then 1%nat else 0%nat.

(** The message of the first call the driver refuses, in the order the
    statement handlers make their calls on [text]. *)
Definition first_error (d : Database) (text : string) : option string :=
  match db_Open d with
  | Some msg => Some msg
  | None =>
      match conn_NewStatement d with
      | Some msg => Some msg
      | None =>
          match stmt_SetSqlQuery d text with
          | Some msg => Some msg
          | None =>
              match stmt_ExecuteQuery d text with
              | inl msg => Some msg
              | inr _ => None
              end
          end
      end
  end.

Definition is_DatabaseOpen (ev : Event) : bool :=
  match ev with DatabaseOpen => true | _ => false end.
Definition is_close (ev : Event) : bool :=
  is_ReaderRelease ev || is_StatementClose ev || is_ConnectionClose ev.

(** The deferred calls of a statement handler, in the order they run. *)
Definition deferred_calls (d : Database) (text : string) (release : bool)
    : list Event :=
  (if release && has_reader d text then [ReaderRelease] else [])
  ++ (if has_statement d then [StatementClose] else [])
  ++ (if opened d then [ConnectionClose] else []).

(** The calls a statement handler makes on [text] before its deferred
    calls: each call is made when the one before it was granted. *)
Definition statement_calls (d : Database) (text : string) : list Event :=
  DatabaseOpen
  :: (if opened d then
        ConnectionNewStatement
        :: (if has_statement d then
              StatementSetSqlQuery text
              :: match stmt_SetSqlQuery d text with
                 | None => [StatementExecuteQuery text]
                 | Some _ => []
                 end
            else [])
      else []).

(** ** The loops of [DoGetDBSchemas], body by body *)

Definition schema_names_body (rec : ObjectsBatch) (catalogName : string)
    (j : Z) (b : SchemaBuilders) : option SchemaBuilders :=
  schemaName ← slice_index (ob_schema_name rec) j;
  Some (mkSchemaBuilders (Append (sb_catalogName b) catalogName)
                         (Append (sb_dbSchemaName b) schemaName)).

Definition schema_catalogs_body (rec : ObjectsBatch)
    (i : Z) (b : SchemaBuilders) : option SchemaBuilders :=
  catalogName ← slice_index (ob_catalog_name rec) i;
  start ← slice_index (ob_schemas_offsets rec) i;
  end_ ← slice_index (ob_schemas_offsets rec) (i + 1);
  for_range start end_ (schema_names_body rec catalogName) b.

Definition DoGetDBSchemas_loops (rec : ObjectsBatch) : option SchemaBuilders :=
  for_range 0 (ob_num_rows rec) (schema_catalogs_body rec)
    (mkSchemaBuilders [] []).

(** The goroutine body of [DoGetDBSchemas]. *)
Definition DoGetDBSchemas_chunk (rec : ObjectsBatch) : option StreamChunk :=
  mkChunk <$> DoGetDBSchemas_record schema_ref.DBSchemas rec.

(** A flat row at schema depth, and the rows of a tree: one per schema. *)
Record SchemaRow : Type := mkSchemaRow {
  srow_catalog : string;
  srow_schema : string
}.

Definition schema_rows_of (c : Catalog) : list SchemaRow :=
  map (fun sch => mkSchemaRow (catalog_name c) (db_schema_name sch))
      (catalog_db_schemas c).

Definition schema_depth_rows (t : ObjectTree) : list SchemaRow :=
  flat_map schema_rows_of t.

Definition schema_count (t : ObjectTree) : nat :=
  sum_list_with (fun c => length (catalog_db_schemas c)) t.

Definition schema_rows_batch (rows : list SchemaRow) : RecordBatch :=
  mkRecordBatch schema_ref.DBSchemas
    [StringArray (map srow_catalog rows); StringArray (map srow_schema rows)]
    (Z.of_nat (length rows)).

Definition extend_schemas (b : SchemaBuilders) (rows : list SchemaRow)
    : SchemaBuilders :=
  mkSchemaBuilders (sb_catalogName b ++ map srow_catalog rows)
                   (sb_dbSchemaName b ++ map srow_schema rows).

(** A batch with other table arrays below its schemas: at schema depth the
    driver reports none. *)
Definition with_tables (rec : ObjectsBatch) (tables_offsets : list Z)
    (names types : list string) : ObjectsBatch :=
  mkObjectsBatch (ob_num_rows rec) (ob_catalog_name rec)
    (ob_schemas_offsets rec) (ob_schema_name rec) tables_offsets names types.

(** The chunk [DoGetCatalogs] makes of a batch. *)
Definition catalog_chunk (rec : ObjectsBatch) : StreamChunk :=
  mkChunk (mkRecordBatch schema_ref.Catalogs
             [StringArray (ob_catalog_name rec)] 0).

Definition asked_catalogs : Event :=
  ConnectionGetObjects ObjectDepthCatalogs None None None [].

(** ** The example programs

    Both examples ask the driver for objects and walk each batch with the
    two loops below; what they print is collected in order.  The first
    argument of [fmt.Printf] is kept as it is given. *)
Inductive Printed : Type :=
| PrintfFormat (format : string)
| PrintfRow (i : Z) (name : string).   (* "Row %d, name = %s\n" *)

(** [examples/flightsql_client.go], the loops over one batch. *)
Definition flightsql_client_batch (rec : ObjectsBatch) (out : list Printed)
    : option (list Printed) :=
  for_range 0 (ob_num_rows rec) (fun i out =>
    start ← slice_index (ob_schemas_offsets rec) i;
    end_ ← slice_index (ob_schemas_offsets rec) i;
    for_range start end_ (fun j out =>
      format ← slice_index (ob_schema_name rec) j;
      Some (out ++ [PrintfFormat format])) out) out.

(** The DuckDB example, the loops over one batch. *)
Definition duckdb_example_batch (rec : ObjectsBatch) (out : list Printed)
    : option (list Printed) :=
  for_range 0 (ob_num_rows rec) (fun i out =>
    nameVal ← slice_index (ob_catalog_name rec) i;
    start ← slice_index (ob_schemas_offsets rec) i;
    end_ ← slice_index (ob_schemas_offsets rec) i;
    out' ← for_range start end_ (fun j out =>
              format ← slice_index (ob_schema_name rec) j;
              Some (out ++ [PrintfFormat format])) out;
    Some (out' ++ [PrintfRow i nameVal])) out.

Definition is_PrintfRow (item : Printed) : bool :=
  match item with PrintfRow _ _ => true | PrintfFormat _ => false end.

(** * Properties *)

(** ** Strings and traces *)

Lemma string_length_append (s1 s2 : string) :
  String.length (s1 +:+ s2) = (String.length s1 + String.length s2)%nat.
Proof.
  induction s1 as [|c s1 IH]; simpl.
  - reflexivity.
  - now rewrite IH.
Qed.

Lemma schemaQuery_longer (query : string) :
  String.length (schemaQuery query) = (String.length query + 26)%nat.
Proof.
  unfold schemaQuery. rewrite !string_length_append. simpl. lia.
Qed.

Lemma schemaQuery_neq (query : string) : schemaQuery query ≠ query.
Proof.
  intros E. apply (f_equal String.length) in E.
  rewrite schemaQuery_longer in E. lia.
Qed.

Lemma zero_handle_encoded : EncodeToString zero_bytes = zero_handle.
Proof. reflexivity. Qed.

(** Unfolding a handler down to the answers of the driver. *)
Ltac unfold_call :=
  unfold Open, NewStatement, SetSqlQuery, ExecuteQuery, GetObjects,
    driver_call, driver_query, must, defer, bind, emit, ret, fail, panic,
    trace, outcome in *.

Ltac driver_answers :=
  repeat match goal with
         | |- context [db_Open ?d] =>
             let E := fresh "E" in destruct (db_Open d) eqn:E; cbn
         | |- context [conn_NewStatement ?d] =>
             let E := fresh "E" in destruct (conn_NewStatement d) eqn:E; cbn
         | |- context [stmt_SetSqlQuery ?d ?q] =>
             let E := fresh "E" in destruct (stmt_SetSqlQuery d q) eqn:E; cbn
         | |- context [stmt_ExecuteQuery ?d ?q] =>
             let E := fresh "E" in destruct (stmt_ExecuteQuery d q) eqn:E; cbn
         | |- context [conn_GetObjects ?d ?a ?b ?c ?e ?f] =>
             let E := fresh "E" in
             destruct (conn_GetObjects d a b c e f) eqn:E; cbn
         end.

Ltac in_trace :=
  repeat match goal with
         | H : _ ∈ [] |- _ => apply not_elem_of_nil in H; destruct H
         | H : _ ∈ _ :: _ |- _ =>
             apply elem_of_cons in H; destruct H as [H|H]; try discriminate H
         | H : StatementSetSqlQuery _ = StatementSetSqlQuery _ |- _ =>
             injection H as H; subst
         | H : StatementExecuteQuery _ = StatementExecuteQuery _ |- _ =>
             injection H as H; subst
         end.

(** ** The statement handlers *)

Lemma describe_server (s : DummyFlightSQLServer) (d : Database)
    (handleBytes : list byte) (query : string) (desc : FlightDescriptor) :
  db s = Some d ->
  fst (GetFlightInfoStatement s (RandFilled handleBytes) query desc)
  = mkServer (db s) (<[EncodeToString handleBytes := query]> (queries s)).
Proof.
  intros Hdb. unfold GetFlightInfoStatement. now rewrite Hdb.
Qed.

Lemma DoGetStatement_registered (s : DummyFlightSQLServer) (d : Database)
    (handle query : string) :
  queries s !! handle = Some query ->
  db s = Some d ->
  DoGetStatement s handle = (s, execute_call d query).
Proof.
  intros Hq Hdb. unfold DoGetStatement. now rewrite Hq, Hdb.
Qed.

Lemma execute_call_texts (d : Database) (query : string) :
  (∀ q, StatementSetSqlQuery q ∈ trace (execute_call d query) -> q = query)
  ∧ (∀ q, StatementExecuteQuery q ∈ trace (execute_call d query) -> q = query).
Proof.
  unfold execute_call. unfold_call.
  split; intros q Hin; revert Hin; driver_answers; intros Hin; in_trace;
    reflexivity.
Qed.

Lemma execute_call_reaches (d : Database) (query : string) :
  db_Open d = None ->
  conn_NewStatement d = None ->
  stmt_SetSqlQuery d query = None ->
  ∃ rest, trace (execute_call d query)
          = [DatabaseOpen; ConnectionNewStatement;
             StatementSetSqlQuery query; StatementExecuteQuery query] ++ rest.
Proof.
  intros Ho Hn Hs. unfold execute_call. unfold_call.
  rewrite Ho, Hn, Hs. cbn.
  destruct (stmt_ExecuteQuery d query); cbn; eexists; reflexivity.
Qed.

(** C1: describing a text [T] stores [T] itself under the handle that is
    generated, the ticket handed out carries that handle, and executing the
    handle gives the driver [T] and nothing else: every text set on or
    executed by the statement is [T], the rewritten text of the probe is
    not among them, and when the driver accepts the calls the text [T] is
    executed. *)
Theorem handle_round_trip (s : DummyFlightSQLServer) (d : Database)
    (handleBytes : list byte) (T : string) (desc : FlightDescriptor) :
  db s = Some d ->
  let described := GetFlightInfoStatement s (RandFilled handleBytes) T desc in
  let H := EncodeToString handleBytes in
  let executed := snd (DoGetStatement (fst described) H) in
  queries (fst described) !! H = Some T
  ∧ (∀ fi, outcome (snd described) = Return fi ->
           fi_Ticket fi = StatementQueryTicket H)
  ∧ (∀ q, (StatementSetSqlQuery q ∈ trace executed) -> q = T)
  ∧ (∀ q, (StatementExecuteQuery q ∈ trace executed) -> q = T)
  ∧ (StatementSetSqlQuery (schemaQuery T) ∉ trace executed)
  ∧ (StatementExecuteQuery (schemaQuery T) ∉ trace executed)
  ∧ (db_Open d = None -> conn_NewStatement d = None ->
     stmt_SetSqlQuery d T = None ->
     ∃ rest, trace executed
             = [DatabaseOpen; ConnectionNewStatement;
                StatementSetSqlQuery T; StatementExecuteQuery T] ++ rest).
Proof.
  intros Hdb described H executed.
  assert (Hs : fst described
               = mkServer (db s) (<[H := T]> (queries s)))
    by (apply (describe_server s d); exact Hdb).
  assert (Hreg : queries (fst described) !! H = Some T)
    by (rewrite Hs; cbn; apply lookup_insert_eq).
  assert (Hex : executed = execute_call d T).
  { unfold executed.
    rewrite (DoGetStatement_registered (fst described) d H T Hreg); [easy|].
    rewrite Hs. exact Hdb. }
  destruct (execute_call_texts d T) as [Hset Hrun].
  split; [exact Hreg|].
  split.
  { intros fi. unfold described, GetFlightInfoStatement. rewrite Hdb.
    unfold_call. cbn. driver_answers; intros Hfi; try discriminate Hfi.
    injection Hfi as <-. reflexivity. }
  rewrite Hex.
  split; [exact Hset|]. split; [exact Hrun|].
  split; [intros Hin; apply Hset in Hin; now apply schemaQuery_neq in Hin|].
  split; [intros Hin; apply Hrun in Hin; now apply schemaQuery_neq in Hin|].
  apply execute_call_reaches.
Qed.

Lemma handle_round_trip_witness :
  db test_server = Some test_db
  ∧ queries (fst (GetFlightInfoStatement test_server (RandFilled zero_bytes)
                    test_query test_desc)) !! zero_handle = Some test_query
  ∧ StatementExecuteQuery test_query
      ∈ trace (snd (DoGetStatement
                      (fst (GetFlightInfoStatement test_server
                              (RandFilled zero_bytes) test_query test_desc))
                      zero_handle)).
Proof.
  split; [reflexivity|].
  pose proof (handle_round_trip test_server test_db zero_bytes test_query
                test_desc eq_refl) as (Hreg & _ & _ & _ & _ & _ & Hrun).
  split; [exact Hreg|].
  specialize (Hrun eq_refl eq_refl eq_refl). destruct Hrun as [rest Hrest].
  change (EncodeToString zero_bytes) with zero_handle in Hrest.
  rewrite Hrest. set_solver.
Defined.

(** The describing handler registers the handle before it probes: a text
    the driver rejects is in the registry when the error is returned. *)
Lemma describe_failure_registers :
  let r := GetFlightInfoStatement test_server (RandFilled zero_bytes)
             "SELECT * FROM missing_table" test_desc in
  outcome (snd r) = Fail (DriverError "no such table")
  ∧ queries test_server !! zero_handle = None
  ∧ queries (fst r) !! zero_handle = Some "SELECT * FROM missing_table"
  ∧ queries (fst r) ≠ queries test_server.
Proof.
  cbv zeta.
  assert (Hs : queries (fst (GetFlightInfoStatement test_server
                               (RandFilled zero_bytes)
                               "SELECT * FROM missing_table" test_desc))
               !! zero_handle = Some "SELECT * FROM missing_table").
  { rewrite (describe_server test_server test_db) by reflexivity.
    cbn [queries]. rewrite zero_handle_encoded. apply lookup_insert_eq. }
  split; [reflexivity|]. split; [apply lookup_empty|]. split; [exact Hs|].
  intros E. rewrite E in Hs. cbn in Hs. rewrite lookup_empty in Hs.
  discriminate Hs.
Qed.

(** C3, as the code has it: when the description of a text fails after the
    handle was generated, the error is the one of the driver, and the
    registry is the old one with the new handle bound to the text. *)
Theorem describe_failure_keeps_handle (s : DummyFlightSQLServer)
    (d : Database) (handleBytes : list byte) (query : string)
    (desc : FlightDescriptor) (e : error) :
  db s = Some d ->
  outcome (snd (GetFlightInfoStatement s (RandFilled handleBytes) query desc))
  = Fail e ->
  (∃ msg, e = DriverError msg)
  ∧ queries (fst (GetFlightInfoStatement s (RandFilled handleBytes) query desc))
    = <[EncodeToString handleBytes := query]> (queries s).
Proof.
  intros Hdb. rewrite (describe_server s d) by exact Hdb. cbn [queries].
  unfold GetFlightInfoStatement. rewrite Hdb. unfold_call. cbn.
  driver_answers; intros He; try discriminate He; injection He as <-;
    (split; [eexists; reflexivity | reflexivity]).
Qed.

Lemma describe_failure_keeps_handle_witness :
  queries (fst (GetFlightInfoStatement test_server (RandFilled zero_bytes)
                  "SELECT * FROM missing_table" test_desc))
  = <[zero_handle := "SELECT * FROM missing_table"]> (queries test_server).
Proof.
  exact (proj2 (describe_failure_keeps_handle test_server test_db zero_bytes
                  "SELECT * FROM missing_table" test_desc
                  (DriverError "no such table") eq_refl eq_refl)).
Defined.

Lemma GetFlightInfoStatement_probe (s : DummyFlightSQLServer) (d : Database)
    (handleBytes : list byte) (query : string) (desc : FlightDescriptor) :
  db s = Some d ->
  snd (GetFlightInfoStatement s (RandFilled handleBytes) query desc)
  = probe_call d query
      (fun schema => mkFlightInfo
                       (StatementQueryTicket (EncodeToString handleBytes))
                       desc (SerializeSchema schema)).
Proof.
  intros Hdb. unfold GetFlightInfoStatement. now rewrite Hdb.
Qed.

Lemma GetSchemaStatement_probe (s : DummyFlightSQLServer) (d : Database)
    (query : string) (desc : FlightDescriptor) :
  db s = Some d ->
  snd (GetSchemaStatement s query desc)
  = probe_call d query (fun schema => mkSchemaResult (SerializeSchema schema)).
Proof.
  intros Hdb. unfold GetSchemaStatement. now rewrite Hdb.
Qed.

Section Probe.
Context {A : Type} (d : Database) (query : string) (result : Schema -> A).

Lemma probe_call_set (q : string) :
  StatementSetSqlQuery q ∈ trace (probe_call d query result) ->
  q = schemaQuery query.
Proof.
  unfold probe_call. unfold_call.
  driver_answers; intros Hin; in_trace; reflexivity.
Qed.

Lemma probe_call_executed (q : string) :
  StatementExecuteQuery q ∈ trace (probe_call d query result) ->
  q = schemaQuery query.
Proof.
  unfold probe_call. unfold_call.
  driver_answers; intros Hin; in_trace; reflexivity.
Qed.

Lemma probe_call_no_next :
  count is_ReaderNext (trace (probe_call d query result)) = 0%nat.
Proof.
  unfold probe_call. unfold_call. driver_answers; reflexivity.
Qed.

Lemma probe_call_success (a : A) :
  outcome (probe_call d query result) = Return a ->
  trace (probe_call d query result) = probe_trace query
  ∧ ∃ reader, stmt_ExecuteQuery d (schemaQuery query) = inr reader
              ∧ a = result (rd_schema reader).
Proof.
  unfold probe_call. unfold_call.
  driver_answers; intros Ha; try discriminate Ha.
  injection Ha as <-. split; [reflexivity|]. eexists; split; reflexivity.
Qed.
End Probe.

Lemma count_app (p : Event -> bool) (t1 t2 : list Event) :
  count p (t1 ++ t2) = (count p t1 + count p t2)%nat.
Proof.
  unfold count. now rewrite filter_app, length_app.
Qed.

(** What the texts and the results of the two describing handlers can be:
    only the rewritten text reaches the driver, the reader is never
    advanced, and a result carries the schema of the reader. *)
Lemma schema_probe_texts (s : DummyFlightSQLServer)
    (rnd : RandRead) (Q : string) (desc : FlightDescriptor) :
  let describe := snd (GetFlightInfoStatement s rnd Q desc) in
  let probe := snd (GetSchemaStatement s Q desc) in
  schemaQuery Q = "SELECT * FROM (" +:+ Q +:+ ") WHERE 1=0"
  ∧ (∀ q, (StatementSetSqlQuery q ∈ trace describe ++ trace probe) ->
          q = schemaQuery Q)
  ∧ (∀ q, (StatementExecuteQuery q ∈ trace describe ++ trace probe) ->
          q = schemaQuery Q)
  ∧ count is_ReaderNext (trace describe ++ trace probe) = 0%nat
  ∧ (∀ fi, outcome describe = Return fi ->
       trace describe = probe_trace Q
       ∧ ∃ d reader, db s = Some d
           ∧ stmt_ExecuteQuery d (schemaQuery Q) = inr reader
           ∧ fi_Schema fi = SerializeSchema (rd_schema reader))
  ∧ (∀ sr, outcome probe = Return sr ->
       trace probe = probe_trace Q
       ∧ ∃ d reader, db s = Some d
           ∧ stmt_ExecuteQuery d (schemaQuery Q) = inr reader
           ∧ sr_Schema sr = SerializeSchema (rd_schema reader)).
Proof.
  cbv zeta. split; [reflexivity|].
  destruct (db s) as [d|] eqn:Hdb.
  - rewrite (GetSchemaStatement_probe s d) by exact Hdb.
    destruct rnd as [handleBytes|msg].
    + rewrite (GetFlightInfoStatement_probe s d) by exact Hdb.
      split; [intros q [Hin|Hin]%elem_of_app;
              eapply probe_call_set; exact Hin|].
      split; [intros q [Hin|Hin]%elem_of_app;
              eapply probe_call_executed; exact Hin|].
      split; [now rewrite count_app, !probe_call_no_next|].
      split; intros r Hr; apply probe_call_success in Hr as [Ht [reader [He ->]]];
        (split; [exact Ht|]); exists d, reader; repeat split; exact He.
    + unfold GetFlightInfoStatement. rewrite Hdb. cbn [snd fail trace fst app].
      split; [intros q Hin; eapply probe_call_set; exact Hin|].
      split; [intros q Hin; eapply probe_call_executed; exact Hin|].
      split; [apply probe_call_no_next|].
      split; [intros fi Hfi; discriminate Hfi|].
      intros r Hr; apply probe_call_success in Hr as [Ht [reader [He ->]]].
      split; [exact Ht|]. exists d, reader; repeat split; exact He.
  - unfold GetFlightInfoStatement, GetSchemaStatement. rewrite Hdb. cbn.
    split; [intros q Hin; in_trace|]. split; [intros q Hin; in_trace|].
    split; [reflexivity|]. split; intros r Hr; discriminate Hr.
Qed.

(** The probe on a driver that grants the connection, the statement and the
    text: the rewritten text is executed, and when the execution gives a
    reader the call returns what is built from its schema. *)
Lemma probe_call_granted {A : Type} (d : Database) (query : string)
    (result : Schema -> A) :
  db_Open d = None ->
  conn_NewStatement d = None ->
  stmt_SetSqlQuery d (schemaQuery query) = None ->
  (∃ rest, trace (probe_call d query result)
           = [DatabaseOpen; ConnectionNewStatement;
              StatementSetSqlQuery (schemaQuery query);
              StatementExecuteQuery (schemaQuery query)] ++ rest)
  ∧ (∀ reader, stmt_ExecuteQuery d (schemaQuery query) = inr reader ->
       probe_call d query result
       = (probe_trace query, Return (result (rd_schema reader)))).
Proof.
  intros Ho Hn Hs. unfold probe_call, probe_trace. unfold_call.
  rewrite Ho, Hn, Hs. cbn. split.
  - destruct (stmt_ExecuteQuery d (schemaQuery query)); cbn;
      eexists; reflexivity.
  - intros reader He. now rewrite He.
Qed.

(** C5: the describing handlers give the driver the text
    [SELECT * FROM (Q) WHERE 1=0] and no other, never advance the reader
    they obtain, and on success return the schema of that reader after
    exactly one execution.  And they do run the probe: on a driver that
    grants the connection, the statement and the text, each handler
    executes the rewritten text, and when that execution gives a reader
    each returns the schema of that reader (the describing handler with the
    ticket of the handle it drew) after the calls of [probe_trace] and no
    other. *)
Theorem schema_probe_runs_rewritten_text (s : DummyFlightSQLServer)
    (rnd : RandRead) (Q : string) (desc : FlightDescriptor) :
  let describe := snd (GetFlightInfoStatement s rnd Q desc) in
  let probe := snd (GetSchemaStatement s Q desc) in
  schemaQuery Q = "SELECT * FROM (" +:+ Q +:+ ") WHERE 1=0"
  ∧ (∀ q, (StatementSetSqlQuery q ∈ trace describe ++ trace probe) ->
          q = schemaQuery Q)
  ∧ (∀ q, (StatementExecuteQuery q ∈ trace describe ++ trace probe) ->
          q = schemaQuery Q)
  ∧ count is_ReaderNext (trace describe ++ trace probe) = 0%nat
  ∧ (∀ fi, outcome describe = Return fi ->
       trace describe = probe_trace Q
       ∧ ∃ d reader, db s = Some d
           ∧ stmt_ExecuteQuery d (schemaQuery Q) = inr reader
           ∧ fi_Schema fi = SerializeSchema (rd_schema reader))
  ∧ (∀ sr, outcome probe = Return sr ->
       trace probe = probe_trace Q
       ∧ ∃ d reader, db s = Some d
           ∧ stmt_ExecuteQuery d (schemaQuery Q) = inr reader
           ∧ sr_Schema sr = SerializeSchema (rd_schema reader))
  ∧ (∀ d, db s = Some d ->
       db_Open d = None ->
       conn_NewStatement d = None ->
       stmt_SetSqlQuery d (schemaQuery Q) = None ->
       (∃ rest, trace probe
                = [DatabaseOpen; ConnectionNewStatement;
                   StatementSetSqlQuery (schemaQuery Q);
                   StatementExecuteQuery (schemaQuery Q)] ++ rest)
       ∧ (∀ handleBytes, rnd = RandFilled handleBytes ->
            ∃ rest, trace describe
                    = [DatabaseOpen; ConnectionNewStatement;
                       StatementSetSqlQuery (schemaQuery Q);
                       StatementExecuteQuery (schemaQuery Q)] ++ rest)
       ∧ (∀ reader, stmt_ExecuteQuery d (schemaQuery Q) = inr reader ->
            probe
            = (probe_trace Q,
               Return (mkSchemaResult (SerializeSchema (rd_schema reader))))
            ∧ (∀ handleBytes, rnd = RandFilled handleBytes ->
                 describe
                 = (probe_trace Q,
                    Return (mkFlightInfo
                              (StatementQueryTicket
                                 (EncodeToString handleBytes))
                              desc (SerializeSchema (rd_schema reader))))))).
Proof.
  cbv zeta.
  destruct (schema_probe_texts s rnd Q desc)
    as (Htext & Hset & Hexec & Hnext & Hdescribe & Hprobe).
  cbv zeta in Hset, Hexec, Hnext, Hdescribe, Hprobe.
  split; [exact Htext|]. split; [exact Hset|]. split; [exact Hexec|].
  split; [exact Hnext|]. split; [exact Hdescribe|]. split; [exact Hprobe|].
  intros d Hdb Ho Hn Hs.
  rewrite (GetSchemaStatement_probe s d) by exact Hdb.
  split; [|split].
  - exact (proj1 (probe_call_granted d Q _ Ho Hn Hs)).
  - intros handleBytes ->.
    rewrite (GetFlightInfoStatement_probe s d) by exact Hdb.
    exact (proj1 (probe_call_granted d Q _ Ho Hn Hs)).
  - intros reader He. split.
    + exact (proj2 (probe_call_granted d Q _ Ho Hn Hs) reader He).
    + intros handleBytes ->.
      rewrite (GetFlightInfoStatement_probe s d) by exact Hdb.
      exact (proj2 (probe_call_granted d Q _ Ho Hn Hs) reader He).
Qed.

Lemma schema_probe_runs_rewritten_text_witness :
  trace (snd (GetSchemaStatement test_server test_query test_desc))
  = [DatabaseOpen; ConnectionNewStatement;
     StatementSetSqlQuery "SELECT * FROM (SELECT id, name FROM test_table ORDER BY id) WHERE 1=0";
     StatementExecuteQuery "SELECT * FROM (SELECT id, name FROM test_table ORDER BY id) WHERE 1=0";
     ReaderRelease; StatementClose; ConnectionClose]
  ∧ snd (GetFlightInfoStatement test_server (RandFilled zero_bytes)
           test_query test_desc)
    = ([DatabaseOpen; ConnectionNewStatement;
        StatementSetSqlQuery "SELECT * FROM (SELECT id, name FROM test_table ORDER BY id) WHERE 1=0";
        StatementExecuteQuery "SELECT * FROM (SELECT id, name FROM test_table ORDER BY id) WHERE 1=0";
        ReaderRelease; StatementClose; ConnectionClose],
       Return (mkFlightInfo (StatementQueryTicket zero_handle) test_desc
                 (SerializeSchema test_schema)))
  ∧ snd (GetSchemaStatement test_server test_query test_desc)
    = (probe_trace test_query,
       Return (mkSchemaResult (SerializeSchema test_schema))).
Proof.
  pose proof (schema_probe_runs_rewritten_text test_server
                (RandFilled zero_bytes) test_query test_desc)
    as (_ & _ & _ & _ & _ & Hprobe & Hruns).
  destruct (Hruns test_db eq_refl eq_refl eq_refl eq_refl)
    as (_ & _ & Hreader).
  destruct (Hreader (mkReader test_schema []) eq_refl) as [Hp Hd].
  split; [|split].
  - exact (proj1 (Hprobe (mkSchemaResult (SerializeSchema test_schema))
                    eq_refl)).
  - exact (Hd zero_bytes eq_refl).
  - exact Hp.
Defined.

(** C6: a handle that is not in the registry is refused before the
    database is looked at: the handler returns the error naming the handle
    with an empty trace (no connection opened, no statement made, nothing
    executed), and that error is neither the one for a missing database nor
    one of the driver. *)
Theorem unknown_handle_refused (s : DummyFlightSQLServer) (handle : string) :
  queries s !! handle = None ->
  DoGetStatement s handle = (s, ([], Fail (unknown_handle handle)))
  ∧ unknown_handle handle = Errorf ("unknown statement handle: " +:+ handle)
  ∧ unknown_handle handle ≠ not_initialized
  ∧ (∀ msg, unknown_handle handle ≠ DriverError msg).
Proof.
  intros Hq. unfold DoGetStatement. rewrite Hq.
  split; [reflexivity|]. split; [reflexivity|].
  split; [|intros msg E; discriminate E].
  intros E. unfold unknown_handle, not_initialized in E. cbn in E.
  discriminate E.
Qed.

Lemma unknown_handle_refused_witness :
  DoGetStatement test_server "unknown-handle-12345"
  = (test_server,
     ([], Fail (Errorf "unknown statement handle: unknown-handle-12345"))).
Proof.
  exact (proj1 (unknown_handle_refused test_server "unknown-handle-12345"
                  (lookup_empty _))).
Defined.

(** ** The registry across requests *)

Lemma serve_other_requests (s : DummyFlightSQLServer) (req : Request) :
  is_describe req = false -> serve s req = s.
Proof.
  destruct req; cbn; try discriminate; intros _.
  - reflexivity.
  - unfold DoGetCatalogs. now destruct (db s).
  - reflexivity.
  - unfold DoGetDBSchemas. now destruct (db s).
  - unfold GetSchemaStatement. now destruct (db s).
  - unfold DoGetStatement. destruct (queries s !! handle); [|reflexivity].
    now destruct (db s).
  - reflexivity.
  - unfold DoGetTables. now destruct (db s).
Qed.

Lemma serve_keeps_handles (s : DummyFlightSQLServer) (req : Request)
    (h : string) :
  is_Some (queries s !! h) -> is_Some (queries (serve s req) !! h).
Proof.
  intros Hh. destruct (is_describe req) eqn:Hd.
  - destruct req; try discriminate Hd. cbn.
    unfold GetFlightInfoStatement.
    destruct (db s); [|exact Hh]. destruct rnd; [|exact Hh]. cbn.
    destruct (decide (EncodeToString handleBytes = h)) as [->|Hne].
    + rewrite lookup_insert_eq. eauto.
    + rewrite lookup_insert_ne by exact Hne. exact Hh.
  - now rewrite serve_other_requests.
Qed.

(** C10: the schema-only handler returns the server it was given, whatever
    the text; so does every request other than a description; and no
    request, and no sequence of requests, makes a registered handle
    disappear. *)
Theorem registry_only_grows (s : DummyFlightSQLServer) (query : string)
    (desc : FlightDescriptor) :
  fst (GetSchemaStatement s query desc) = s
  ∧ (∀ req, is_describe req = false -> queries (serve s req) = queries s)
  ∧ (∀ req h, is_Some (queries s !! h) -> is_Some (queries (serve s req) !! h))
  ∧ (∀ reqs h, is_Some (queries s !! h) ->
               is_Some (queries (foldl serve s reqs) !! h)).
Proof.
  split; [exact (serve_other_requests s (ReqGetSchemaStatement query desc)
                   eq_refl)|].
  split; [intros req Hreq; now rewrite serve_other_requests|].
  split; [intros req h; apply serve_keeps_handles|].
  intros reqs. revert s. induction reqs as [|req reqs IH]; intros s h Hh.
  - exact Hh.
  - cbn. apply IH. now apply serve_keeps_handles.
Qed.

Lemma registry_only_grows_witness :
  queries (serve test_server (ReqGetSchemaStatement test_query test_desc))
  = queries test_server
  ∧ is_Some (queries (foldl serve (mkServer (Some test_db)
                                     {[zero_handle := test_query]})
                        [ReqDoGetStatement zero_handle;
                         ReqGetFlightInfoStatement (RandFilled [x01])
                           "SELECT 1" test_desc;
                         ReqDoGetTables (mkGetTables None None None [])])
             !! zero_handle).
Proof.
  split.
  - exact (proj1 (proj2 (registry_only_grows test_server test_query test_desc))
             (ReqGetSchemaStatement test_query test_desc) eq_refl).
  - apply (proj2 (proj2 (proj2 (registry_only_grows
                                  (mkServer (Some test_db)
                                     {[zero_handle := test_query]})
                                  test_query test_desc)))).
    cbn [queries]. rewrite lookup_singleton_eq. eauto.
Defined.

(** ** A missing database *)

(** The handlers that check the database pointer report the missing
    database without calling the driver. *)
Lemma nil_database_reported (s : DummyFlightSQLServer) :
  db s = None ->
  snd (DoGetCatalogs s) = ([], Fail not_initialized)
  ∧ (∀ rnd query desc,
       GetFlightInfoStatement s rnd query desc = (s, ([], Fail not_initialized)))
  ∧ (∀ query desc,
       GetSchemaStatement s query desc = (s, ([], Fail not_initialized)))
  ∧ (∀ handle, is_Some (queries s !! handle) ->
       DoGetStatement s handle = (s, ([], Fail not_initialized))).
Proof.
  intros Hdb.
  unfold DoGetCatalogs, GetFlightInfoStatement, GetSchemaStatement,
    DoGetStatement.
  rewrite Hdb. repeat split. intros handle [q ->]. reflexivity.
Qed.

(** C8, on the two handlers that do not check: asked for schemas or for
    tables, a server without database dereferences the nil pointer and
    panics, while the catalogs handler on the same server returns the
    error. *)
Theorem nil_database_dereferenced :
  outcome (snd (DoGetDBSchemas nil_server (mkGetDBSchemas None None)))
  = Panic "invalid memory address or nil pointer dereference"
  ∧ outcome (snd (DoGetTables nil_server (mkGetTables None None None [])))
    = Panic "invalid memory address or nil pointer dereference"
  ∧ outcome (snd (DoGetCatalogs nil_server))
    = Fail (Errorf "database is not initialized").
Proof. repeat split. Qed.

(** ** Row counts of the batches built by the metadata handlers *)

Lemma for_steps_invariant {S : Type} (P : S -> Prop)
    (body : Z -> S -> option S) :
  (∀ i st st', P st -> body i st = Some st' -> P st') ->
  ∀ n i st st', P st -> for_steps body i n st = Some st' -> P st'.
Proof.
  intros Hbody. induction n as [|n IH]; intros i st st' HP Hrun; cbn in Hrun.
  - now injection Hrun as <-.
  - destruct (body i st) as [st1|] eqn:Hb; [|discriminate Hrun].
    exact (IH _ _ _ (Hbody _ _ _ HP Hb) Hrun).
Qed.

Lemma for_range_invariant {S : Type} (P : S -> Prop) (lo hi : Z)
    (body : Z -> S -> option S) (st st' : S) :
  (∀ i st st', P st -> body i st = Some st' -> P st') ->
  P st -> for_range lo hi body st = Some st' -> P st'.
Proof.
  intros Hbody. unfold for_range. apply for_steps_invariant. exact Hbody.
Qed.

Ltac option_binds :=
  repeat match goal with
         | H : (mbind _ ?m) = Some _ |- _ =>
             let x := fresh "x" in
             destruct m as [x|] eqn:?; cbn in H; [|discriminate H]
         | H : (?m ≫= _) = Some _ |- _ =>
             let x := fresh "x" in
             destruct m as [x|] eqn:?; cbn in H; [|discriminate H]
         end.

Lemma NewRecordBatch_given_rows (schema : Schema) (cols : list Column)
    (nrows : Z) (r : RecordBatch) :
  0 <= nrows ->
  NewRecordBatch schema cols nrows = Some r ->
  r = mkRecordBatch schema cols nrows.
Proof.
  intros Hn. unfold NewRecordBatch.
  destruct (nrows <? 0) eqn:Hneg; [lia|].
  destruct (validate schema cols nrows); intros E; [|discriminate E].
  now injection E as <-.
Qed.

(** The schemas handler builds its two columns in lockstep and declares
    their common length. *)
Lemma DoGetDBSchemas_record_aligned (schema : Schema) (rec : ObjectsBatch)
    (r : RecordBatch) :
  DoGetDBSchemas_record schema rec = Some r -> aligned r.
Proof.
  unfold DoGetDBSchemas_record. intros Hr. option_binds.
  apply NewRecordBatch_given_rows in Hr; [|lia]. subst r.
  set (P := fun b => length (sb_catalogName b) = length (sb_dbSchemaName b)).
  assert (HP : P x).
  { revert Heqo. apply (for_range_invariant P); [|reflexivity].
    intros i st st' HP Hb. option_binds. revert Hb.
    apply (for_range_invariant P); [|exact HP].
    clear. intros j st st' HP Hb. option_binds. injection Hb as <-.
    unfold P in *. cbn. unfold Append. rewrite !length_app. cbn. lia. }
  unfold P in HP. unfold aligned. cbn. repeat constructor. cbn. now rewrite HP.
Qed.

(** So does the tables handler with its four columns. *)
Lemma DoGetTables_record_aligned (schema : Schema) (rec : ObjectsBatch)
    (r : RecordBatch) :
  DoGetTables_record schema rec = Some r -> aligned r.
Proof.
  unfold DoGetTables_record. intros Hr. option_binds.
  apply NewRecordBatch_given_rows in Hr; [|lia]. subst r.
  set (P := fun b => length (tb_catalogName b) = length (tb_dbSchemaName b)
                     ∧ length (tb_catalogName b) = length (tb_tableName b)
                     ∧ length (tb_catalogName b) = length (tb_tableType b)).
  assert (HP : P x).
  { revert Heqo. unfold DoGetTables_loops.
    apply (for_range_invariant P); [|now cbn].
    intros i st st' HP Hb. option_binds. revert Hb.
    apply (for_range_invariant P); [|exact HP].
    clear. intros j st st' HP Hb. option_binds. revert Hb.
    apply (for_range_invariant P); [|exact HP].
    clear. intros k st st' HP Hb. option_binds. injection Hb as <-.
    unfold P in *. cbn. unfold Append. rewrite !length_app. cbn. lia. }
  destruct HP as (H1 & H2 & H3).
  unfold aligned. cbn. repeat constructor; cbn; lia.
Qed.

(** The catalogs handler passes the constant 0 as the row count: the batch
    it builds holds the whole catalog column and declares no rows. *)
Lemma DoGetCatalogs_record_rows (rec : ObjectsBatch) :
  DoGetCatalogs_record schema_ref.Catalogs rec
  = Some (mkRecordBatch schema_ref.Catalogs
            [StringArray (ob_catalog_name rec)] 0).
Proof.
  unfold DoGetCatalogs_record, NewRecordBatch, validate. cbn.
  destruct (Z.ltb_spec (Z.of_nat (length (ob_catalog_name rec))) 0);
    [exfalso; lia|].
  reflexivity.
Qed.

Lemma DoGetCatalogs_record_not_aligned (rec : ObjectsBatch) (r : RecordBatch) :
  ob_catalog_name rec ≠ [] ->
  DoGetCatalogs_record schema_ref.Catalogs rec = Some r ->
  ¬ aligned r.
Proof.
  intros Hne. rewrite DoGetCatalogs_record_rows. intros E. injection E as <-.
  unfold aligned. cbn. intros Hal. inversion Hal as [|c l Hc _]; subst.
  cbn in Hc. destruct (ob_catalog_name rec); [now apply Hne|].
  cbn in Hc. lia.
Qed.

(** C7, on the catalogs handler: for a driver reporting three catalogs in
    one batch, the batch emitted holds a column of three names and declares
    a row count of 0; the batches the schemas and tables handlers build
    from the same input declare the length of their columns. *)
Theorem DoGetCatalogs_declares_no_rows :
  outcome (snd (DoGetCatalogs test_server))
  = Return (schema_ref.Catalogs,
            [mkChunk (mkRecordBatch schema_ref.Catalogs
                        [StringArray ["main"; "empty_catalog"; "temp"]] 0)])
  ∧ ¬ aligned (mkRecordBatch schema_ref.Catalogs
                 [StringArray ["main"; "empty_catalog"; "temp"]] 0)
  ∧ (rb_rows <$> DoGetDBSchemas_record schema_ref.DBSchemas (layout test_tree))
    = Some 3
  ∧ (rb_rows <$> DoGetTables_record schema_ref.Tables (layout test_tree))
    = Some 3.
Proof.
  split; [reflexivity|]. split; [|split; reflexivity].
  apply (DoGetCatalogs_record_not_aligned (layout test_tree)).
  - discriminate.
  - reflexivity.
Qed.

(** ** Result streams and the resources behind them *)

Lemma count_deliveries (p : Event -> bool) (chunks : list StreamChunk) :
  p (ReaderNext true) = false ->
  (∀ c, p (ChanSend c) = false) ->
  count p (deliveries chunks) = 0%nat.
Proof.
  intros Hn Hs. unfold count, deliveries.
  induction chunks as [|c chunks IH]; [reflexivity|].
  cbn [flat_map app].
  rewrite filter_cons_False by (rewrite Hn; discriminate).
  rewrite filter_cons_False by (rewrite Hs; discriminate).
  exact IH.
Qed.

Section Goroutine.
Context {In : Type} (chunk_of : In -> StreamChunk).

(** A consumer that keeps receiving gets every chunk; the goroutine then
    sees the reader exhausted, releases it and closes the channel. *)
Lemma goroutine_exhausted (batches : list In) (recvs : nat) :
  (length batches <= recvs)%nat ->
  goroutine (fun rec => Some (chunk_of rec)) batches recvs
  = mkRun (deliveries (map chunk_of batches)
           ++ [ReaderNext false; ReaderRelease; ChanClose])
          (map chunk_of batches) Finished.
Proof.
  revert recvs. induction batches as [|b batches IH]; intros recvs Hle.
  - reflexivity.
  - destruct recvs as [|recvs]; cbn in Hle; [lia|].
    cbn. rewrite IH by lia. reflexivity.
Qed.

(** A consumer that stops before the last chunk leaves the goroutine
    parked in its send, before the deferred calls. *)
Lemma goroutine_stopped (batches : list In) (recvs : nat) :
  (recvs < length batches)%nat ->
  goroutine (fun rec => Some (chunk_of rec)) batches recvs
  = mkRun (deliveries (map chunk_of (take recvs batches))
           ++ [ReaderNext true])
          (map chunk_of (take recvs batches)) BlockedOnSend.
Proof.
  revert recvs. induction batches as [|b batches IH]; intros recvs Hlt.
  - cbn in Hlt. lia.
  - destruct recvs as [|recvs]; [reflexivity|].
    cbn in Hlt. cbn. rewrite IH by lia. reflexivity.
Qed.
End Goroutine.

Lemma execute_call_success (d : Database) (query : string)
    (schema : Schema) (ch : Chan) :
  outcome (execute_call d query) = Return (schema, ch) ->
  trace (execute_call d query) = execute_trace query
  ∧ ∃ reader, stmt_ExecuteQuery d query = inr reader
              ∧ schema = rd_schema reader
              ∧ ch = goroutine (fun rec => Some (mkChunk rec))
                       (rd_batches reader).
Proof.
  unfold execute_call. unfold_call.
  driver_answers; intros Hr; try discriminate Hr.
  injection Hr as <- <-. split; [reflexivity|].
  eexists; repeat split.
Qed.

Lemma execute_call_accepted (d : Database) (query : string)
    (reader : RecordReader) :
  db_Open d = None ->
  conn_NewStatement d = None ->
  stmt_SetSqlQuery d query = None ->
  stmt_ExecuteQuery d query = inr reader ->
  execute_call d query
  = (execute_trace query,
     Return (rd_schema reader,
             goroutine (fun rec => Some (mkChunk rec)) (rd_batches reader))).
Proof.
  intros Ho Hn Hs He. unfold execute_call. unfold_call.
  now rewrite Ho, Hn, Hs, He.
Qed.

(** Stopping after the first of two batches: the statement and the
    connection were closed when the handler returned, and the goroutine
    stays parked in its send with the reader unreleased. *)
Lemma early_stop_never_releases :
  let call := snd (DoGetStatement described_server zero_handle) in
  trace call = execute_trace test_query
  ∧ ∃ schema ch, outcome call = Return (schema, ch)
      ∧ run_received (ch 1%nat) = [mkChunk test_batch1]
      ∧ run_end (ch 1%nat) = BlockedOnSend
      ∧ count is_ReaderRelease (run_events (ch 1%nat)) = 0%nat.
Proof.
  cbv zeta.
  rewrite (DoGetStatement_registered described_server test_db zero_handle
             test_query).
  - split; [reflexivity|]. eexists _, _. split; [reflexivity|].
    repeat split.
  - unfold described_server.
    rewrite (describe_server test_server test_db) by reflexivity.
    cbn [queries]. rewrite zero_handle_encoded. apply lookup_insert_eq.
  - reflexivity.
Qed.

(** C9, as the code has it: when the driver accepts the calls of
    [DoGetStatement], the statement and the connection are each closed
    once, by the deferred calls that run when the handler returns, before
    the consumer holds the channel; the reader is released once, after the
    last batch, when the consumer receives every batch; and it is not
    released at all when the consumer stops with batches left, the
    goroutine staying parked in its send. *)
Theorem statement_resources (s : DummyFlightSQLServer) (d : Database)
    (handle query : string) (reader : RecordReader) :
  queries s !! handle = Some query ->
  db s = Some d ->
  db_Open d = None ->
  conn_NewStatement d = None ->
  stmt_SetSqlQuery d query = None ->
  stmt_ExecuteQuery d query = inr reader ->
  ∃ ch,
    snd (DoGetStatement s handle)
    = (execute_trace query, Return (rd_schema reader, ch))
    ∧ count is_StatementClose (execute_trace query) = 1%nat
    ∧ count is_ConnectionClose (execute_trace query) = 1%nat
    ∧ count is_ReaderRelease (execute_trace query) = 0%nat
    ∧ ∀ recvs : nat,
        count is_StatementClose (run_events (ch recvs)) = 0%nat
        ∧ count is_ConnectionClose (run_events (ch recvs)) = 0%nat
        ∧ ((length (rd_batches reader) <= recvs)%nat ->
           run_end (ch recvs) = Finished
           ∧ run_received (ch recvs) = map mkChunk (rd_batches reader)
           ∧ run_events (ch recvs)
             = deliveries (map mkChunk (rd_batches reader))
               ++ [ReaderNext false; ReaderRelease; ChanClose]
           ∧ count is_ReaderRelease (run_events (ch recvs)) = 1%nat)
        ∧ ((recvs < length (rd_batches reader))%nat ->
           run_end (ch recvs) = BlockedOnSend
           ∧ run_received (ch recvs)
             = map mkChunk (take recvs (rd_batches reader))
           ∧ count is_ReaderRelease (run_events (ch recvs)) = 0%nat).
Proof.
  intros Hq Hdb Ho Hn Hs He.
  rewrite (DoGetStatement_registered s d handle query Hq Hdb).
  rewrite (execute_call_accepted d query reader Ho Hn Hs He).
  eexists. split; [reflexivity|]. repeat split.
  all: destruct (le_lt_dec (length (rd_batches reader)) recvs) as [Hle|Hlt].
  all: try (rewrite goroutine_exhausted by lia; cbn [run_events run_end
                                                     run_received]).
  all: try (rewrite goroutine_stopped by lia; cbn [run_events run_end
                                                    run_received]).
  all: try lia; try reflexivity.
  all: rewrite count_app, count_deliveries by reflexivity; reflexivity.
Qed.

Lemma statement_resources_witness :
  ∃ ch,
    snd (DoGetStatement described_server zero_handle)
    = (execute_trace test_query, Return (test_schema, ch))
    ∧ run_received (ch 2%nat) = [mkChunk test_batch1; mkChunk test_batch2]
    ∧ count is_ReaderRelease (run_events (ch 2%nat)) = 1%nat
    ∧ count is_ReaderRelease (run_events (ch 1%nat)) = 0%nat.
Proof.
  assert (Hq : queries described_server !! zero_handle = Some test_query).
  { unfold described_server.
    rewrite (describe_server test_server test_db) by reflexivity.
    cbn [queries]. rewrite zero_handle_encoded. apply lookup_insert_eq. }
  destruct (statement_resources described_server test_db zero_handle
              test_query (mkReader test_schema [test_batch1; test_batch2])
              Hq eq_refl eq_refl eq_refl eq_refl eq_refl)
    as (ch & Hcall & _ & _ & _ & Hruns).
  exists ch. split; [exact Hcall|].
  destruct (Hruns 2%nat) as (_ & _ & Hfull & _).
  destruct (Hruns 1%nat) as (_ & _ & _ & Hstop).
  cbn in Hfull, Hstop.
  destruct (Hfull (le_n _)) as (_ & Hrecv & _ & Hrel).
  destruct (Hstop (le_n _)) as (_ & _ & Hnone).
  repeat split; assumption.
Defined.

(** ** The schema of the probe and the schema of the execution *)

(** With a driver that types columns by the rows it reads, the description
    of [test_query] reports two integer columns and the execution of the
    handle it returned reports an integer and a string column. *)
Lemma probe_schema_differs :
  let described := GetFlightInfoStatement inferring_server
                     (RandFilled zero_bytes) test_query test_desc in
  ∃ fi schema ch,
    outcome (snd described) = Return fi
    ∧ fi_Ticket fi = StatementQueryTicket zero_handle
    ∧ outcome (snd (DoGetStatement (fst described) zero_handle))
      = Return (schema, ch)
    ∧ fi_Schema fi = SerializeSchema untyped_schema
    ∧ schema = test_schema
    ∧ fi_Schema fi ≠ SerializeSchema schema.
Proof.
  cbv zeta.
  rewrite (DoGetStatement_registered _ inferring_db zero_handle test_query).
  - eexists _, _, _. split; [reflexivity|]. split; [reflexivity|].
    split; [reflexivity|]. split; [reflexivity|]. split; [reflexivity|].
    discriminate.
  - rewrite (describe_server inferring_server inferring_db) by reflexivity.
    cbn [queries]. rewrite zero_handle_encoded. apply lookup_insert_eq.
  - reflexivity.
Qed.

(** C4, as the code has it: the schema a description returns is the schema
    of the reader the driver gives for the rewritten text, the schema an
    execution returns is the schema of the reader the driver gives for the
    text itself, and the two are equal whenever the driver gives both
    readers the same schema. *)
Theorem probe_schema_of_rewritten_text (s : DummyFlightSQLServer)
    (d : Database) (handleBytes : list byte) (Q : string)
    (desc : FlightDescriptor) (fi : FlightInfo) (sr : SchemaResult)
    (schema : Schema) (ch : Chan) :
  db s = Some d ->
  let described := GetFlightInfoStatement s (RandFilled handleBytes) Q desc in
  outcome (snd described) = Return fi ->
  outcome (snd (GetSchemaStatement s Q desc)) = Return sr ->
  outcome (snd (DoGetStatement (fst described) (EncodeToString handleBytes)))
  = Return (schema, ch) ->
  ∃ probed executed,
    stmt_ExecuteQuery d (schemaQuery Q) = inr probed
    ∧ stmt_ExecuteQuery d Q = inr executed
    ∧ fi_Schema fi = SerializeSchema (rd_schema probed)
    ∧ sr_Schema sr = SerializeSchema (rd_schema probed)
    ∧ schema = rd_schema executed
    ∧ (rd_schema probed = rd_schema executed ->
       fi_Schema fi = SerializeSchema schema
       ∧ sr_Schema sr = SerializeSchema schema).
Proof.
  intros Hdb described Hfi Hsr Hex.
  unfold described in *.
  rewrite (GetFlightInfoStatement_probe s d) in Hfi by exact Hdb.
  rewrite (GetSchemaStatement_probe s d) in Hsr by exact Hdb.
  apply probe_call_success in Hfi as (_ & probed & Hp & ->).
  apply probe_call_success in Hsr as (_ & probed' & Hp' & ->).
  rewrite Hp in Hp'. injection Hp' as <-.
  rewrite (DoGetStatement_registered _ d _ Q) in Hex.
  - apply execute_call_success in Hex as (_ & executed & He & -> & _).
    exists probed, executed. cbn. repeat split; try assumption.
    all: cbn; congruence.
  - rewrite (describe_server s d) by exact Hdb. cbn [queries].
    apply lookup_insert_eq.
  - rewrite (describe_server s d) by exact Hdb. exact Hdb.
Qed.

Lemma probe_schema_of_rewritten_text_witness :
  ∃ probed executed,
    stmt_ExecuteQuery test_db (schemaQuery test_query) = inr probed
    ∧ stmt_ExecuteQuery test_db test_query = inr executed
    ∧ rd_schema probed = test_schema
    ∧ rd_schema executed = test_schema.
Proof.
  destruct (probe_schema_of_rewritten_text test_server test_db zero_bytes
              test_query test_desc
              (mkFlightInfo (StatementQueryTicket zero_handle) test_desc
                 (SerializeSchema test_schema))
              (mkSchemaResult (SerializeSchema test_schema))
              test_schema
              (goroutine (fun rec => Some (mkChunk rec))
                 [test_batch1; test_batch2])
              eq_refl eq_refl eq_refl)
    as (probed & executed & Hp & He & Hfi & _ & Hs & _).
  - rewrite (DoGetStatement_registered _ test_db _ test_query).
    + reflexivity.
    + rewrite (describe_server test_server test_db) by reflexivity.
      cbn [queries]. apply lookup_insert_eq.
    + reflexivity.
  - exists probed, executed. cbn in Hfi. injection Hfi as Hfi.
    repeat split; try assumption; congruence.
Defined.

(** ** Flattening at table depth *)

Lemma DoGetTables_loops_bodies (rec : ObjectsBatch) :
  DoGetTables_loops rec
  = for_range 0 (ob_num_rows rec) (catalogs_body rec)
      (mkTableBuilders [] [] [] []).
Proof. reflexivity. Qed.

Lemma slice_index_nat {A : Type} (l : list A) (n : nat) :
  slice_index l (Z.of_nat n) = l !! n.
Proof.
  unfold slice_index.
  destruct (Z.ltb_spec (Z.of_nat n) 0); [lia|]. now rewrite Nat2Z.id.
Qed.

Lemma slice_index_middle {A B : Type} (f : A -> B) (p q : list A) (x : A) :
  slice_index (map f (p ++ x :: q)) (Z.of_nat (length p)) = Some (f x).
Proof.
  rewrite slice_index_nat, map_app. cbn [map].
  rewrite <- (length_map f p). apply list_lookup_middle. reflexivity.
Qed.

Lemma offsets_from_prefix {A : Type} (len : A -> nat) (start : Z)
    (p q : list A) :
  slice_index (offsets_from start (map len (p ++ q))) (Z.of_nat (length p))
  = Some (start + Z.of_nat (sum_list_with len p)).
Proof.
  rewrite slice_index_nat. revert start.
  induction p as [|x p IH]; intros start.
  - cbn. destruct (map len q); cbn; f_equal; lia.
  - cbn. rewrite IH. f_equal. lia.
Qed.

Lemma offsets_from_next {A : Type} (len : A -> nat) (start : Z)
    (p q : list A) (x : A) :
  slice_index (offsets_from start (map len (p ++ x :: q)))
              (Z.of_nat (length p) + 1)
  = Some (start + Z.of_nat (sum_list_with len p) + Z.of_nat (len x)).
Proof.
  replace (p ++ x :: q) with ((p ++ [x]) ++ q) by now rewrite <- app_assoc.
  replace (Z.of_nat (length p) + 1) with (Z.of_nat (length (p ++ [x])))
    by (rewrite length_app; cbn; lia).
  rewrite offsets_from_prefix, sum_list_with_app. cbn. f_equal. lia.
Qed.

Lemma length_flat_map_sum {A B : Type} (g : A -> list B) (l : list A) :
  length (flat_map g l) = sum_list_with (fun x => length (g x)) l.
Proof.
  induction l as [|x l IH]; [reflexivity|].
  cbn. now rewrite length_app, IH.
Qed.

(** A counting loop whose body, at the position of an element of [L],
    applies [step] to that element, folds [step] over the segment it
    walks. *)
Lemma for_steps_segment {S X : Type} (body : Z -> S -> option S)
    (step : X -> S -> S) (L : list X) :
  (∀ p x q st, L = p ++ x :: q ->
               body (Z.of_nat (length p)) st = Some (step x st)) ->
  ∀ seg pre post st,
    L = pre ++ seg ++ post ->
    for_steps body (Z.of_nat (length pre)) (length seg) st
    = Some (foldl (fun st x => step x st) st seg).
Proof.
  intros Hbody. induction seg as [|x seg IH]; intros pre post st HL.
  - reflexivity.
  - cbn. rewrite (Hbody pre x (seg ++ post) st HL).
    replace (Z.of_nat (length pre) + 1) with (Z.of_nat (length (pre ++ [x])))
      by (rewrite length_app; cbn; lia).
    apply (IH (pre ++ [x]) post). now rewrite <- app_assoc.
Qed.

Lemma for_range_segment {S X : Type} (body : Z -> S -> option S)
    (step : X -> S -> S) (L seg pre post : list X) (st : S) :
  (∀ p x q st, L = p ++ x :: q ->
               body (Z.of_nat (length p)) st = Some (step x st)) ->
  L = pre ++ seg ++ post ->
  for_range (0 + Z.of_nat (length pre))
            (0 + Z.of_nat (length pre) + Z.of_nat (length seg)) body st
  = Some (foldl (fun st x => step x st) st seg).
Proof.
  intros Hbody HL. unfold for_range.
  replace (Z.to_nat (0 + Z.of_nat (length pre) + Z.of_nat (length seg)
                     - (0 + Z.of_nat (length pre)))) with (length seg) by lia.
  rewrite Z.add_0_l. now apply (for_steps_segment body step L Hbody seg pre post).
Qed.

Lemma extend_nil (b : TableBuilders) : extend b [] = b.
Proof. destruct b. unfold extend. cbn. now rewrite !app_nil_r. Qed.

Lemma extend_app (b : TableBuilders) (r1 r2 : list FlatRow) :
  extend (extend b r1) r2 = extend b (r1 ++ r2).
Proof. unfold extend. cbn. now rewrite !map_app, !app_assoc. Qed.

Lemma foldl_extend {X : Type} (g : X -> list FlatRow) (l : list X)
    (b : TableBuilders) :
  foldl (fun st x => extend st (g x)) b l = extend b (flat_map g l).
Proof.
  revert b. induction l as [|x l IH]; intros b; cbn.
  - now rewrite extend_nil.
  - now rewrite IH, extend_app.
Qed.

Lemma flat_map_singletons {A B : Type} (f : A -> B) (l : list A) :
  flat_map (fun x => [f x]) l = map f l.
Proof.
  induction l as [|x l IH]; cbn; [|rewrite IH]; reflexivity.
Qed.

Section Layout.
Variable t : ObjectTree.

Let rec := layout t.

Lemma tables_body_row (catalogName schemaName : string)
    (p q : list Table) (tb : Table) (b : TableBuilders) :
  all_tables (all_schemas t) = p ++ tb :: q ->
  tables_body rec catalogName schemaName (Z.of_nat (length p)) b
  = Some (extend b [mkFlatRow catalogName schemaName
                      (table_name tb) (table_type tb)]).
Proof.
  intros HT. unfold tables_body, rec, layout. cbn [ob_table_name ob_table_type].
  rewrite HT, !slice_index_middle. reflexivity.
Qed.

Lemma layout_schema_name (p q : list DBSchema) (sch : DBSchema) :
  all_schemas t = p ++ sch :: q ->
  slice_index (ob_schema_name rec) (Z.of_nat (length p))
  = Some (db_schema_name sch).
Proof.
  intros HS. unfold rec, layout. cbn [ob_schema_name].
  rewrite HS. apply slice_index_middle.
Qed.

Lemma layout_tables_start (p q : list DBSchema) (sch : DBSchema) :
  all_schemas t = p ++ sch :: q ->
  slice_index (ob_tables_offsets rec) (Z.of_nat (length p))
  = Some (0 + Z.of_nat (length (all_tables p))).
Proof.
  intros HS. unfold rec, layout. cbn [ob_tables_offsets].
  rewrite HS, offsets_from_prefix. unfold all_tables.
  now rewrite length_flat_map_sum.
Qed.

Lemma layout_tables_end (p q : list DBSchema) (sch : DBSchema) :
  all_schemas t = p ++ sch :: q ->
  slice_index (ob_tables_offsets rec) (Z.of_nat (length p) + 1)
  = Some (0 + Z.of_nat (length (all_tables p))
          + Z.of_nat (length (db_schema_tables sch))).
Proof.
  intros HS. unfold rec, layout. cbn [ob_tables_offsets].
  rewrite HS, offsets_from_next. unfold all_tables.
  now rewrite length_flat_map_sum.
Qed.

Lemma schemas_body_rows (catalogName : string)
    (p q : list DBSchema) (sch : DBSchema) (b : TableBuilders) :
  all_schemas t = p ++ sch :: q ->
  schemas_body rec catalogName (Z.of_nat (length p)) b
  = Some (extend b (schema_rows catalogName sch)).
Proof.
  intros HS. unfold schemas_body.
  rewrite (layout_schema_name p q sch HS), (layout_tables_start p q sch HS),
    (layout_tables_end p q sch HS).
  cbn [mbind option_bind].
  rewrite (for_range_segment _
             (fun tb st => extend st [mkFlatRow catalogName
                                        (db_schema_name sch)
                                        (table_name tb) (table_type tb)])
             (all_tables (all_schemas t)) (db_schema_tables sch)
             (all_tables p) (all_tables q)).
  - rewrite (foldl_extend (fun tb => [mkFlatRow catalogName
                                        (db_schema_name sch)
                                        (table_name tb) (table_type tb)])).
    unfold schema_rows. now rewrite flat_map_singletons.
  - intros p' x q' st HT. eapply tables_body_row. exact HT.
  - rewrite HS. unfold all_tables. rewrite flat_map_app. reflexivity.
Qed.

Lemma layout_catalog_name (p q : list Catalog) (c : Catalog) :
  t = p ++ c :: q ->
  slice_index (ob_catalog_name rec) (Z.of_nat (length p))
  = Some (catalog_name c).
Proof.
  intros Ht. unfold rec, layout. cbn [ob_catalog_name].
  rewrite Ht. apply slice_index_middle.
Qed.

Lemma layout_schemas_start (p q : list Catalog) (c : Catalog) :
  t = p ++ c :: q ->
  slice_index (ob_schemas_offsets rec) (Z.of_nat (length p))
  = Some (0 + Z.of_nat (length (all_schemas p))).
Proof.
  intros Ht. unfold rec, layout. cbn [ob_schemas_offsets].
  rewrite Ht, offsets_from_prefix. unfold all_schemas.
  now rewrite length_flat_map_sum.
Qed.

Lemma layout_schemas_end (p q : list Catalog) (c : Catalog) :
  t = p ++ c :: q ->
  slice_index (ob_schemas_offsets rec) (Z.of_nat (length p) + 1)
  = Some (0 + Z.of_nat (length (all_schemas p))
          + Z.of_nat (length (catalog_db_schemas c))).
Proof.
  intros Ht. unfold rec, layout. cbn [ob_schemas_offsets].
  rewrite Ht, offsets_from_next. unfold all_schemas.
  now rewrite length_flat_map_sum.
Qed.

Lemma catalogs_body_rows (p q : list Catalog) (c : Catalog)
    (b : TableBuilders) :
  t = p ++ c :: q ->
  catalogs_body rec (Z.of_nat (length p)) b
  = Some (extend b (catalog_rows c)).
Proof.
  intros Ht. unfold catalogs_body.
  rewrite (layout_catalog_name p q c Ht), (layout_schemas_start p q c Ht),
    (layout_schemas_end p q c Ht).
  cbn [mbind option_bind].
  rewrite (for_range_segment _
             (fun sch st => extend st (schema_rows (catalog_name c) sch))
             (all_schemas t) (catalog_db_schemas c)
             (all_schemas p) (all_schemas q)).
  - rewrite (foldl_extend (schema_rows (catalog_name c))). reflexivity.
  - intros p' x q' st HS. eapply schemas_body_rows. exact HS.
  - rewrite Ht at 1. unfold all_schemas. rewrite flat_map_app. reflexivity.
Qed.

Lemma DoGetTables_loops_layout :
  DoGetTables_loops rec
  = Some (extend (mkTableBuilders [] [] [] []) (table_rows t)).
Proof.
  rewrite DoGetTables_loops_bodies.
  change (ob_num_rows rec) with (Z.of_nat (length t)).
  unfold for_range.
  replace (Z.to_nat (Z.of_nat (length t) - 0)) with (length t) by lia.
  change 0 with (Z.of_nat (length (@nil Catalog))).
  assert (Hbody : ∀ p x q st, t = p ++ x :: q ->
            catalogs_body rec (Z.of_nat (length p)) st
            = Some (extend st (catalog_rows x)))
    by (intros p x q st Ht; eapply catalogs_body_rows; exact Ht).
  rewrite (for_steps_segment (catalogs_body rec)
             (fun c st => extend st (catalog_rows c)) t Hbody t [] []).
  - now rewrite (foldl_extend catalog_rows).
  - cbn. now rewrite app_nil_r.
Qed.
End Layout.

Lemma NewRecordBatch_Tables (c1 c2 c3 c4 : list string) :
  length c2 = length c1 -> length c3 = length c1 -> length c4 = length c1 ->
  NewRecordBatch schema_ref.Tables
    [StringArray c1; StringArray c2; StringArray c3; StringArray c4]
    (Z.of_nat (length c1))
  = Some (mkRecordBatch schema_ref.Tables
            [StringArray c1; StringArray c2; StringArray c3; StringArray c4]
            (Z.of_nat (length c1))).
Proof.
  intros H2 H3 H4. unfold NewRecordBatch, validate. cbn.
  destruct (Z.ltb_spec (Z.of_nat (length c1)) 0); [exfalso; lia|].
  rewrite H2, H3, H4, Z.ltb_irrefl.
  now destruct (Z.of_nat (length c1) =? 0).
Qed.

Lemma DoGetTables_record_layout (t : ObjectTree) :
  DoGetTables_record schema_ref.Tables (layout t)
  = Some (rows_batch (table_rows t)).
Proof.
  unfold DoGetTables_record. rewrite DoGetTables_loops_layout.
  cbn [mbind option_bind extend tb_catalogName tb_dbSchemaName tb_tableName
       tb_tableType app].
  rewrite NewRecordBatch_Tables by now rewrite !length_map.
  unfold rows_batch. now rewrite length_map.
Qed.

Lemma sum_list_with_ext {A : Type} (f g : A -> nat) (l : list A) :
  (∀ x, f x = g x) -> sum_list_with f l = sum_list_with g l.
Proof.
  intros Hfg. induction l as [|x l IH]; cbn; [|rewrite Hfg, IH]; reflexivity.
Qed.

Lemma length_table_rows (t : ObjectTree) :
  length (table_rows t) = table_count t.
Proof.
  unfold table_rows, table_count. rewrite length_flat_map_sum.
  apply sum_list_with_ext. intros c. unfold catalog_rows.
  rewrite length_flat_map_sum. apply sum_list_with_ext. intros sch.
  unfold schema_rows. apply length_map.
Qed.

Lemma elem_of_table_rows (t : ObjectTree) (row : FlatRow) :
  row ∈ table_rows t
  ↔ ∃ c sch tb, c ∈ t ∧ sch ∈ catalog_db_schemas c
       ∧ tb ∈ db_schema_tables sch
       ∧ row = mkFlatRow (catalog_name c) (db_schema_name sch)
                 (table_name tb) (table_type tb).
Proof.
  unfold table_rows, catalog_rows, schema_rows.
  repeat setoid_rewrite list_elem_of_In. rewrite in_flat_map. split.
  - intros (c & Hc & Hrow). apply in_flat_map in Hrow as (sch & Hsch & Hrow).
    apply in_map_iff in Hrow as (tb & <- & Htb).
    exists c, sch, tb. auto.
  - intros (c & sch & tb & Hc & Hsch & Htb & ->).
    exists c. split; [exact Hc|]. apply in_flat_map.
    exists sch. split; [exact Hsch|]. apply in_map_iff.
    exists tb. auto.
Qed.

Lemma DoGetTables_chunk_layout (t : ObjectTree) :
  DoGetTables_chunk (layout t) = Some (mkChunk (rows_batch (table_rows t))).
Proof.
  unfold DoGetTables_chunk. now rewrite DoGetTables_record_layout.
Qed.

Lemma DoGetTables_goroutine (trees : list ObjectTree) (recvs : nat) :
  (length trees <= recvs)%nat ->
  run_received (goroutine DoGetTables_chunk (map layout trees) recvs)
  = map (fun t => mkChunk (rows_batch (table_rows t))) trees
  ∧ run_end (goroutine DoGetTables_chunk (map layout trees) recvs) = Finished.
Proof.
  revert recvs. induction trees as [|t trees IH]; intros recvs Hle.
  - split; reflexivity.
  - destruct recvs as [|recvs]; cbn in Hle; [lia|].
    cbn [map goroutine]. rewrite DoGetTables_chunk_layout.
    destruct (IH recvs ltac:(lia)) as [Hrecv Hend].
    cbn [run_received run_end]. now rewrite Hrecv, Hend.
Qed.

(** ** Every well-formed batch is the layout of a tree *)

Lemma map_zip_with_l {A B C D : Type} (f : A -> B -> C) (g : C -> D)
    (h : A -> D) (l : list A) (k : list B) :
  (∀ x y, g (f x y) = h x) ->
  length k = length l ->
  map g (zip_with f l k) = map h l.
Proof.
  intros Hg. revert k. induction l as [|x l IH]; intros [|y k] Hlen;
    try discriminate Hlen; cbn; [reflexivity|].
  rewrite Hg, IH; [reflexivity|]. now injection Hlen.
Qed.

Lemma map_zip_with_r {A B C D : Type} (f : A -> B -> C) (g : C -> D)
    (h : B -> D) (l : list A) (k : list B) :
  (∀ x y, g (f x y) = h y) ->
  length k = length l ->
  map g (zip_with f l k) = map h k.
Proof.
  intros Hg. revert k. induction l as [|x l IH]; intros [|y k] Hlen;
    try discriminate Hlen; cbn; [reflexivity|].
  rewrite Hg, IH; [reflexivity|]. now injection Hlen.
Qed.

Lemma flat_map_zip_with_r {A B C : Type} (f : A -> list B -> C)
    (g : C -> list B) (l : list A) (k : list (list B)) :
  (∀ x y, g (f x y) = y) ->
  length k = length l ->
  flat_map g (zip_with f l k) = concat k.
Proof.
  intros Hg. revert k. induction l as [|x l IH]; intros [|y k] Hlen;
    try discriminate Hlen; cbn; [reflexivity|].
  rewrite Hg, IH; [reflexivity|]. now injection Hlen.
Qed.

Lemma length_zip_with_eq {A B C : Type} (f : A -> B -> C)
    (l : list A) (k : list B) :
  length k = length l -> length (zip_with f l k) = length l.
Proof.
  revert k. induction l as [|x l IH]; intros [|y k] Hlen;
    try discriminate Hlen; cbn; [reflexivity|].
  rewrite IH; [reflexivity|]. now injection Hlen.
Qed.

Lemma offsets_chain_le (lo : Z) (rest : list Z) (hi : Z) :
  offsets_chain lo rest hi = true -> lo <= hi.
Proof.
  revert lo. induction rest as [|o rest IH]; intros lo; cbn.
  - intros E. apply Z.eqb_eq in E. lia.
  - intros [E1 E2]%andb_prop. apply IH in E2. apply Z.leb_le in E1. lia.
Qed.

Lemma segment_app {A : Type} (l : list A) (lo mid hi : Z) :
  0 <= lo -> lo <= mid -> mid <= hi ->
  segment l lo mid ++ segment l mid hi = segment l lo hi.
Proof.
  intros H0 H1 H2. unfold segment.
  replace (Z.to_nat mid) with (Z.to_nat lo + Z.to_nat (mid - lo))%nat by lia.
  rewrite <- drop_drop, take_take_drop. f_equal. lia.
Qed.

Lemma length_segments_from {A : Type} (lo : Z) (rest : list Z) (l : list A) :
  length (segments_from lo rest l) = length rest.
Proof.
  revert lo. induction rest as [|o rest IH]; intros lo; cbn;
    [|rewrite IH]; reflexivity.
Qed.

Lemma concat_segments_from {A : Type} (lo : Z) (rest : list Z) (hi : Z)
    (l : list A) :
  0 <= lo ->
  offsets_chain lo rest hi = true ->
  concat (segments_from lo rest l) = segment l lo hi.
Proof.
  revert lo. induction rest as [|o rest IH]; intros lo H0; cbn.
  - intros E. apply Z.eqb_eq in E. subst hi. unfold segment.
    now rewrite Z.sub_diag.
  - intros [E1 E2]%andb_prop. apply Z.leb_le in E1.
    rewrite (IH o) by (lia || exact E2).
    apply segment_app; [lia|lia|]. now apply offsets_chain_le in E2.
Qed.

Lemma offsets_of_segments_from {A : Type} (lo : Z) (rest : list Z)
    (l : list A) :
  0 <= lo ->
  offsets_chain lo rest (Z.of_nat (length l)) = true ->
  offsets_from lo (map length (segments_from lo rest l)) = lo :: rest.
Proof.
  revert lo. induction rest as [|o rest IH]; intros lo H0; cbn.
  - reflexivity.
  - intros [E1 E2]%andb_prop. apply Z.leb_le in E1.
    pose proof (offsets_chain_le _ _ _ E2) as Hhi.
    f_equal. unfold segment at 1. rewrite length_take, length_drop.
    replace (lo + Z.of_nat (Z.to_nat (o - lo)
                            `min` (length l - Z.to_nat lo))) with o by lia.
    apply IH; [lia|exact E2].
Qed.

Lemma segment_whole {A : Type} (l : list A) :
  segment l 0 (Z.of_nat (length l)) = l.
Proof.
  unfold segment. cbn [Z.to_nat]. rewrite drop_0, Z.sub_0_r, Nat2Z.id.
  now apply take_ge.
Qed.

Section Segments.
Context {A : Type} (offsets : list Z) (parents : nat) (l : list A).
Hypothesis Hok : offsets_ok offsets parents (length l) = true.

Lemma length_segments : length (segments offsets l) = parents.
Proof.
  destruct offsets as [|o rest]; [discriminate Hok|]. cbn in *.
  apply andb_prop in Hok as [[_ Hlen]%andb_prop _].
  apply Nat.eqb_eq in Hlen. now rewrite length_segments_from.
Qed.

Lemma concat_segments : concat (segments offsets l) = l.
Proof.
  destruct offsets as [|o rest]; [discriminate Hok|]. cbn in *.
  apply andb_prop in Hok as [[Ho _]%andb_prop Hchain].
  apply Z.eqb_eq in Ho. subst o.
  rewrite (concat_segments_from 0 rest (Z.of_nat (length l)))
    by (lia || exact Hchain).
  apply segment_whole.
Qed.

Lemma offsets_of_segments :
  offsets_from 0 (map length (segments offsets l)) = offsets.
Proof.
  destruct offsets as [|o rest]; [discriminate Hok|]. cbn in *.
  apply andb_prop in Hok as [[Ho _]%andb_prop Hchain].
  apply Z.eqb_eq in Ho. subst o.
  apply offsets_of_segments_from; [lia|exact Hchain].
Qed.
End Segments.

Lemma layout_tree_of (rec : ObjectsBatch) :
  well_formed rec = true -> layout (tree_of rec) = rec.
Proof.
  destruct rec as [rows cnames soffs snames toffs tnames ttypes].
  unfold well_formed. cbn [ob_num_rows ob_catalog_name ob_schemas_offsets
    ob_schema_name ob_tables_offsets ob_table_name ob_table_type].
  intros [[[Hrows Hs]%andb_prop Ht]%andb_prop Hty]%andb_prop.
  apply Z.eqb_eq in Hrows. apply Nat.eqb_eq in Hty.
  set (tables := zip_with mkTable tnames ttypes).
  assert (Hlt : length tables = length tnames)
    by (apply length_zip_with_eq; exact Hty).
  rewrite <- Hlt in Ht.
  set (schemas := zip_with mkDBSchema snames (segments toffs tables)).
  assert (Hls : length schemas = length snames)
    by (apply length_zip_with_eq; now apply length_segments).
  rewrite <- Hls in Hs.
  assert (Hall_s : all_schemas (tree_of (mkObjectsBatch rows cnames soffs
                                           snames toffs tnames ttypes))
                   = schemas).
  { unfold all_schemas, tree_of. cbn. fold tables. fold schemas.
    rewrite (flat_map_zip_with_r mkCatalog catalog_db_schemas)
      by (try reflexivity; now apply length_segments).
    now apply (concat_segments soffs (length cnames)). }
  assert (Hall_t : all_tables schemas = tables).
  { unfold all_tables, schemas.
    rewrite (flat_map_zip_with_r mkDBSchema db_schema_tables)
      by (try reflexivity; now apply length_segments).
    now apply (concat_segments toffs (length snames)). }
  unfold layout. rewrite Hall_s, Hall_t.
  unfold tree_of. cbn. fold tables. fold schemas. f_equal.
  - rewrite length_zip_with_eq by now apply length_segments. now symmetry.
  - rewrite (map_zip_with_l mkCatalog catalog_name id)
      by (try reflexivity; now apply length_segments).
    apply map_id.
  - rewrite (map_zip_with_r mkCatalog
               (fun c => length (catalog_db_schemas c)) length)
      by (try reflexivity; now apply length_segments).
    now apply (offsets_of_segments soffs (length cnames)).
  - unfold schemas.
    rewrite (map_zip_with_l mkDBSchema db_schema_name id)
      by (try reflexivity; now apply length_segments).
    apply map_id.
  - unfold schemas.
    rewrite (map_zip_with_r mkDBSchema
               (fun sch => length (db_schema_tables sch)) length)
      by (try reflexivity; now apply length_segments).
    now apply (offsets_of_segments toffs (length snames)).
  - unfold tables.
    rewrite (map_zip_with_l mkTable table_name id) by (try reflexivity; easy).
    apply map_id.
  - unfold tables.
    rewrite (map_zip_with_r mkTable table_type id) by (try reflexivity; easy).
    apply map_id.
Qed.

(** C2: the batch the tables handler builds from the layout of a tree
    holds, in order and column by column, one row per table of the tree,
    each with the names of the catalog and of the schema the table belongs
    to; the number of rows, which the batch declares, is the sum over the
    catalogs of the sum over their schemas of the number of tables.  Every
    well-formed batch is the layout of the tree read back from it, so this
    covers every well-formed batch.  A consumer reading the stream of
    [DoGetTables] to its end receives these batches, one per batch of the
    driver. *)
Theorem DoGetTables_flattens :
  (∀ t : ObjectTree,
     DoGetTables_record schema_ref.Tables (layout t)
     = Some (rows_batch (table_rows t))
     ∧ length (table_rows t) = table_count t
     ∧ rb_rows (rows_batch (table_rows t)) = Z.of_nat (table_count t)
     ∧ (∀ row, row ∈ table_rows t
          ↔ ∃ c sch tb, c ∈ t ∧ sch ∈ catalog_db_schemas c
               ∧ tb ∈ db_schema_tables sch
               ∧ row = mkFlatRow (catalog_name c) (db_schema_name sch)
                         (table_name tb) (table_type tb)))
  ∧ (∀ rec : ObjectsBatch,
       well_formed rec = true ->
       layout (tree_of rec) = rec
       ∧ DoGetTables_record schema_ref.Tables rec
         = Some (rows_batch (table_rows (tree_of rec))))
  ∧ (∀ (s : DummyFlightSQLServer) (d : Database) (cmd : GetTables)
       (trees : list ObjectTree),
       db s = Some d ->
       db_Open d = None ->
       conn_GetObjects d ObjectDepthTables (GetCatalog cmd)
         (GetDBSchemaFilterPattern cmd) (GetTableNameFilterPattern cmd)
         (GetTableTypes cmd) = inr (map layout trees) ->
       ∃ ch, outcome (snd (DoGetTables s cmd))
             = Return (schema_ref.Tables, ch)
         ∧ run_received (ch (length trees))
           = map (fun t => mkChunk (rows_batch (table_rows t))) trees).
Proof.
  split; [intros t|split].
  - split; [apply DoGetTables_record_layout|].
    split; [apply length_table_rows|].
    split; [cbn; now rewrite length_table_rows|].
    apply elem_of_table_rows.
  - intros rec Hwf. pose proof (layout_tree_of rec Hwf) as Hrec.
    split; [exact Hrec|].
    rewrite <- Hrec at 1. apply DoGetTables_record_layout.
  - intros s d cmd trees Hdb Ho Hg.
    unfold DoGetTables. rewrite Hdb. unfold_call. rewrite Ho, Hg. cbn.
    eexists. split; [reflexivity|].
    apply (DoGetTables_goroutine trees (length trees)). lia.
Qed.

Lemma DoGetTables_flattens_witness :
  (∃ ch, outcome (snd (DoGetTables test_server (mkGetTables None None None [])))
         = Return (schema_ref.Tables, ch)
     ∧ run_received (ch 1%nat)
       = [mkChunk (mkRecordBatch schema_ref.Tables
                     [StringArray ["main"; "main"; "temp"];
                      StringArray ["main"; "main"; "scratch"];
                      StringArray ["test_table"; "test_view"; "t"];
                      StringArray ["table"; "view"; "table"]] 3)])
  ∧ well_formed (layout test_tree) = true
  ∧ DoGetTables_record schema_ref.Tables (layout test_tree)
    = Some (rows_batch (table_rows (tree_of (layout test_tree)))).
Proof.
  destruct DoGetTables_flattens as (_ & Hback & Hstream).
  split; [|split; [reflexivity|]].
  - exact (Hstream test_server test_db (mkGetTables None None None [])
             [test_tree] eq_refl eq_refl eq_refl).
  - exact (proj2 (Hback (layout test_tree) eq_refl)).
Defined.


(** * Further properties of the handlers *)

(** ** Handles *)

Lemma hexdigit_high_low (v : byte) :
  is_hex_digit (hexdigit (N.shiftr (Byte.to_N v) 4)) = true
  ∧ is_hex_digit (hexdigit (N.land (Byte.to_N v) 15)) = true
  ∧ match hex_value (hexdigit (N.shiftr (Byte.to_N v) 4)),
          hex_value (hexdigit (N.land (Byte.to_N v) 15)) with
    | Some hi, Some lo => Byte.of_N (16 * hi + lo) = Some v
    | _, _ => False
    end.
Proof. destruct v; vm_compute; repeat split. Qed.

Lemma decode_handle_EncodeToString (handleBytes : list byte) :
  decode_handle (EncodeToString handleBytes) = Some handleBytes.
Proof.
  induction handleBytes as [|v bs IH]; [reflexivity|].
  cbn [EncodeToString decode_handle].
  destruct (hexdigit_high_low v) as (_ & _ & Hv).
  destruct (hex_value (hexdigit (N.shiftr (Byte.to_N v) 4))) as [hi|];
    [|destruct Hv].
  destruct (hex_value (hexdigit (N.land (Byte.to_N v) 15))) as [lo|];
    [|destruct Hv].
  now rewrite IH, Hv.
Qed.

Lemma EncodeToString_inj (bs1 bs2 : list byte) :
  EncodeToString bs1 = EncodeToString bs2 -> bs1 = bs2.
Proof.
  intros E. apply (f_equal decode_handle) in E.
  rewrite !decode_handle_EncodeToString in E. now injection E.
Qed.

Lemma EncodeToString_length (bs : list byte) :
  String.length (EncodeToString bs) = (2 * length bs)%nat.
Proof.
  induction bs as [|v bs IH]; [reflexivity|].
  cbn [EncodeToString String.length length]. rewrite IH. lia.
Qed.

Lemma EncodeToString_hex (bs : list byte) :
  forallb is_hex_digit (list_ascii_of_string (EncodeToString bs)) = true.
Proof.
  induction bs as [|v bs IH]; [reflexivity|].
  cbn [EncodeToString list_ascii_of_string forallb].
  destruct (hexdigit_high_low v) as (Hhi & Hlo & _).
  now rewrite Hhi, Hlo, IH.
Qed.

(** X1: the handle a description hands out for sixteen random bytes is a
    text of thirty-two lowercase hexadecimal digits from which the bytes
    can be read back, and it is the key under which the text was stored. *)
Theorem described_handle_shape (s : DummyFlightSQLServer) (d : Database)
    (handleBytes : list byte) (query : string) (desc : FlightDescriptor)
    (fi : FlightInfo) :
  db s = Some d ->
  length handleBytes = 16%nat ->
  outcome (snd (GetFlightInfoStatement s (RandFilled handleBytes) query desc))
  = Return fi ->
  ∃ handle,
    fi_Ticket fi = StatementQueryTicket handle
    ∧ String.length handle = 32%nat
    ∧ forallb is_hex_digit (list_ascii_of_string handle) = true
    ∧ decode_handle handle = Some handleBytes
    ∧ queries (fst (GetFlightInfoStatement s (RandFilled handleBytes)
                      query desc)) !! handle = Some query.
Proof.
  intros Hdb Hlen Hfi. exists (EncodeToString handleBytes).
  rewrite (GetFlightInfoStatement_probe s d) in Hfi by exact Hdb.
  apply probe_call_success in Hfi as (_ & reader & _ & ->).
  split; [reflexivity|].
  split; [rewrite EncodeToString_length, Hlen; reflexivity|].
  split; [apply EncodeToString_hex|].
  split; [apply decode_handle_EncodeToString|].
  rewrite (describe_server s d) by exact Hdb. apply lookup_insert_eq.
Qed.

Lemma described_handle_shape_witness :
  ∃ handle,
    String.length handle = 32%nat
    ∧ decode_handle handle = Some zero_bytes
    ∧ queries described_server !! handle = Some test_query.
Proof.
  destruct (described_handle_shape test_server test_db zero_bytes test_query
              test_desc
              (mkFlightInfo (StatementQueryTicket zero_handle) test_desc
                 (SerializeSchema test_schema))
              eq_refl eq_refl eq_refl)
    as (handle & _ & Hlen & _ & Hdec & Hq).
  exists handle. repeat split; assumption.
Defined.

(** X2: two descriptions in a row.  The second text is always reachable
    under its handle; the first stays reachable under its own handle when
    the two draws of random bytes differ, and is replaced by the second
    text when they coincide. *)
Theorem two_descriptions (s : DummyFlightSQLServer) (d : Database)
    (bytes1 bytes2 : list byte) (T1 T2 : string)
    (desc1 desc2 : FlightDescriptor) :
  db s = Some d ->
  let s1 := fst (GetFlightInfoStatement s (RandFilled bytes1) T1 desc1) in
  let s2 := fst (GetFlightInfoStatement s1 (RandFilled bytes2) T2 desc2) in
  DoGetStatement s2 (EncodeToString bytes2) = (s2, execute_call d T2)
  ∧ (bytes1 ≠ bytes2 ->
     DoGetStatement s2 (EncodeToString bytes1) = (s2, execute_call d T1))
  ∧ (bytes1 = bytes2 ->
     DoGetStatement s2 (EncodeToString bytes1) = (s2, execute_call d T2)).
Proof.
  intros Hdb s1 s2.
  assert (Hs1 : s1 = mkServer (db s) (<[EncodeToString bytes1 := T1]> (queries s)))
    by (apply (describe_server s d); exact Hdb).
  assert (Hdb1 : db s1 = Some d) by (rewrite Hs1; exact Hdb).
  assert (Hs2 : s2 = mkServer (db s1)
                       (<[EncodeToString bytes2 := T2]> (queries s1)))
    by (apply (describe_server s1 d); exact Hdb1).
  assert (Hdb2 : db s2 = Some d) by (rewrite Hs2; exact Hdb1).
  split; [|split].
  - apply DoGetStatement_registered; [|exact Hdb2].
    rewrite Hs2. apply lookup_insert_eq.
  - intros Hne. apply DoGetStatement_registered; [|exact Hdb2].
    rewrite Hs2. cbn [queries]. rewrite lookup_insert_ne.
    + rewrite Hs1. apply lookup_insert_eq.
    + intros E. apply Hne. symmetry. now apply EncodeToString_inj.
  - intros ->. apply DoGetStatement_registered; [|exact Hdb2].
    rewrite Hs2. apply lookup_insert_eq.
Qed.

Lemma two_descriptions_witness :
  let s1 := fst (GetFlightInfoStatement test_server (RandFilled zero_bytes)
                   test_query test_desc) in
  let s2 := fst (GetFlightInfoStatement s1 (RandFilled [x01]) "SELECT 1"
                   test_desc) in
  DoGetStatement s2 zero_handle = (s2, execute_call test_db test_query)
  ∧ DoGetStatement s2 "01" = (s2, execute_call test_db "SELECT 1").
Proof.
  cbv zeta.
  destruct (two_descriptions test_server test_db zero_bytes [x01] test_query
              "SELECT 1" test_desc test_desc eq_refl) as (H2 & H1 & _).
  split; [|exact H2].
  apply H1. discriminate.
Defined.

(** ** The registry over time *)

Lemma serve_keeps_database (s : DummyFlightSQLServer) (req : Request) :
  db (serve s req) = db s.
Proof.
  destruct (is_describe req) eqn:Hd.
  - destruct req; try discriminate Hd. cbn. unfold GetFlightInfoStatement.
    destruct (db s) eqn:E; [|cbn; exact E]. destruct rnd; cbn; congruence.
  - now rewrite serve_other_requests.
Qed.

Lemma serve_keeps_binding (s : DummyFlightSQLServer) (req : Request)
    (h : string) :
  redraws h req = false -> queries (serve s req) !! h = queries s !! h.
Proof.
  intros Hr. destruct (is_describe req) eqn:Hd.
  - destruct req; try discriminate Hd. cbn. unfold GetFlightInfoStatement.
    destruct (db s); [|reflexivity]. destruct rnd; [|reflexivity]. cbn.
    cbn in Hr. apply String.eqb_neq in Hr. now rewrite lookup_insert_ne.
  - now rewrite serve_other_requests.
Qed.

(** X3: across any sequence of requests the database of the server stays
    the same, and what a handle is bound to (a text, or nothing) stays the
    same as long as no description in the sequence draws the bytes of that
    very handle. *)
Theorem binding_stable (s : DummyFlightSQLServer) (reqs : list Request)
    (h : string) :
  db (foldl serve s reqs) = db s
  ∧ (forallb (fun req => negb (redraws h req)) reqs = true ->
     queries (foldl serve s reqs) !! h = queries s !! h
     ∧ DoGetStatement (foldl serve s reqs) h
       = (foldl serve s reqs, snd (DoGetStatement s h))).
Proof.
  assert (Hdb : ∀ reqs s, db (foldl serve s reqs) = db s).
  { clear. induction reqs as [|req reqs IH]; intros s; [reflexivity|].
    cbn. rewrite IH. apply serve_keeps_database. }
  split; [apply Hdb|]. intros Hno.
  assert (Hq : queries (foldl serve s reqs) !! h = queries s !! h).
  { revert s. induction reqs as [|req reqs IH]; intros s; [reflexivity|].
    cbn in Hno. apply andb_prop in Hno as [Hreq Hrest].
    cbn. rewrite (IH Hrest). apply serve_keeps_binding.
    now apply negb_true_iff in Hreq. }
  split; [exact Hq|].
  unfold DoGetStatement. rewrite Hq, Hdb.
  destruct (queries s !! h); [|reflexivity]. now destruct (db s).
Qed.

Lemma binding_stable_witness :
  queries (foldl serve described_server
             [ReqGetSchemaStatement "SELECT 2" test_desc;
              ReqGetFlightInfoStatement (RandFilled [x01]) "SELECT 1"
                test_desc;
              ReqDoGetStatement "01"]) !! zero_handle
  = Some test_query.
Proof.
  destruct (binding_stable described_server
              [ReqGetSchemaStatement "SELECT 2" test_desc;
               ReqGetFlightInfoStatement (RandFilled [x01]) "SELECT 1"
                 test_desc;
               ReqDoGetStatement "01"] zero_handle) as [_ Hstable].
  destruct (Hstable eq_refl) as [Hq _]. rewrite Hq.
  unfold described_server.
  rewrite (describe_server test_server test_db) by reflexivity.
  apply lookup_insert_eq.
Defined.

(** ** The two describing handlers *)

(** X4: on the same server and text, the schema-only handler makes the
    same driver calls, in the same order, as the describing handler, and
    ends the same way: with the same schema, or with the same error. *)
Theorem describing_handlers_agree (s : DummyFlightSQLServer)
    (handleBytes : list byte) (query : string) (desc : FlightDescriptor) :
  let describe :=
    snd (GetFlightInfoStatement s (RandFilled handleBytes) query desc) in
  let probe := snd (GetSchemaStatement s query desc) in
  trace probe = trace describe
  ∧ outcome probe
    = Outcome_map (fun fi => mkSchemaResult (fi_Schema fi)) (outcome describe).
Proof.
  cbv zeta. unfold GetFlightInfoStatement, GetSchemaStatement.
  destruct (db s) as [d|]; [|split; reflexivity].
  cbn [snd]. unfold_call. driver_answers; split; reflexivity.
Qed.

(** ** Errors of the driver and what is closed after them *)

Lemma probe_call_deferred {A : Type} (d : Database) (query : string)
    (result : Schema -> A) :
  let call := probe_call d query result in
  trace call = statement_calls d (schemaQuery query)
               ++ deferred_calls d (schemaQuery query) true
  ∧ (∀ msg, first_error d (schemaQuery query) = Some msg ->
            outcome call = Fail (DriverError msg))
  ∧ (first_error d (schemaQuery query) = None ->
     ∃ a, outcome call = Return a).
Proof.
  cbv zeta. unfold probe_call, statement_calls, deferred_calls, first_error,
    has_reader, has_statement, opened.
  unfold_call.
  destruct (db_Open d); [|destruct (conn_NewStatement d);
    [|destruct (stmt_SetSqlQuery d (schemaQuery query));
      [|destruct (stmt_ExecuteQuery d (schemaQuery query))]]]; cbn.
  all: split; [reflexivity|].
  all: split; [intros msg E; try discriminate E; now injection E as <-|].
  all: intros E; try discriminate E; eexists; reflexivity.
Qed.

Lemma statement_calls_no_close (d : Database) (text : string) :
  count is_close (statement_calls d text) = 0%nat
  ∧ count is_ConnectionClose (statement_calls d text) = 0%nat
  ∧ count is_StatementClose (statement_calls d text) = 0%nat
  ∧ count is_ReaderRelease (statement_calls d text) = 0%nat
  ∧ count is_DatabaseOpen (statement_calls d text) = 1%nat.
Proof.
  unfold statement_calls, has_statement, opened.
  destruct (db_Open d), (conn_NewStatement d), (stmt_SetSqlQuery d text);
    repeat split.
Qed.

Lemma deferred_calls_counts (d : Database) (text : string) (release : bool) :
  count is_ConnectionClose (deferred_calls d text release) = once (opened d)
  ∧ count is_StatementClose (deferred_calls d text release)
    = once (has_statement d)
  ∧ count is_ReaderRelease (deferred_calls d text release)
    = once (release && has_reader d text)
  ∧ count is_DatabaseOpen (deferred_calls d text release) = 0%nat.
Proof.
  unfold deferred_calls, has_reader, has_statement, opened.
  destruct release, (db_Open d), (conn_NewStatement d),
    (stmt_SetSqlQuery d text), (stmt_ExecuteQuery d text); repeat split.
Qed.

(** X5: whatever the driver answers, a describing handler makes its calls
    in order, each only when the one before was granted, and returns the
    message of the first call the driver refused, or a result when none was
    refused.  Its last actions are the deferred calls: the reader released
    if one was obtained, then the statement closed if one was made, then
    the connection closed if it was opened; each happens once, and nothing
    is released or closed before. *)
Theorem describing_handlers_close_what_they_opened
    (s : DummyFlightSQLServer) (d : Database) (handleBytes : list byte)
    (query : string) (desc : FlightDescriptor) :
  db s = Some d ->
  let describe :=
    snd (GetFlightInfoStatement s (RandFilled handleBytes) query desc) in
  let probe := snd (GetSchemaStatement s query desc) in
  trace describe = statement_calls d (schemaQuery query)
                   ++ deferred_calls d (schemaQuery query) true
  ∧ trace probe = trace describe
  ∧ count is_close (statement_calls d (schemaQuery query)) = 0%nat
  ∧ count is_DatabaseOpen (trace describe) = 1%nat
  ∧ count is_ConnectionClose (trace describe) = once (opened d)
  ∧ count is_StatementClose (trace describe) = once (has_statement d)
  ∧ count is_ReaderRelease (trace describe)
    = once (has_reader d (schemaQuery query))
  ∧ (∀ msg, first_error d (schemaQuery query) = Some msg ->
            outcome describe = Fail (DriverError msg)
            ∧ outcome probe = Fail (DriverError msg))
  ∧ (first_error d (schemaQuery query) = None ->
     (∃ fi, outcome describe = Return fi) ∧ (∃ sr, outcome probe = Return sr)).
Proof.
  intros Hdb. cbv zeta.
  rewrite (GetSchemaStatement_probe s d) by exact Hdb.
  rewrite (GetFlightInfoStatement_probe s d) by exact Hdb.
  destruct (probe_call_deferred d query
              (fun schema => mkFlightInfo
                 (StatementQueryTicket (EncodeToString handleBytes))
                 desc (SerializeSchema schema)))
    as (Htrace & Hfail & Hok).
  destruct (probe_call_deferred d query
              (fun schema => mkSchemaResult (SerializeSchema schema)))
    as (Htrace' & Hfail' & Hok').
  cbv zeta in *. rewrite Htrace, Htrace'.
  destruct (statement_calls_no_close d (schemaQuery query))
    as (Hc & Hcc & Hsc & Hrr & Hdo).
  destruct (deferred_calls_counts d (schemaQuery query) true)
    as (Dcc & Dsc & Drr & Ddo).
  rewrite !count_app, Hcc, Hsc, Hrr, Hdo, Dcc, Dsc, Drr, Ddo.
  split; [reflexivity|]. split; [reflexivity|]. split; [exact Hc|].
  split; [reflexivity|]. split; [reflexivity|]. split; [reflexivity|].
  split; [reflexivity|]. split.
  - intros msg E. split; [exact (Hfail msg E)|exact (Hfail' msg E)].
  - intros E. split; [exact (Hok E)|exact (Hok' E)].
Qed.

Lemma describing_handlers_close_what_they_opened_witness :
  outcome (snd (GetSchemaStatement test_server "SELECT * FROM missing_table"
                  test_desc))
  = Fail (DriverError "no such table")
  ∧ count is_StatementClose
      (trace (snd (GetFlightInfoStatement test_server (RandFilled zero_bytes)
                     "SELECT * FROM missing_table" test_desc))) = 1%nat.
Proof.
  destruct (describing_handlers_close_what_they_opened test_server test_db
              zero_bytes "SELECT * FROM missing_table" test_desc eq_refl)
    as (_ & _ & _ & _ & _ & Hstmt & _ & Hfail & _).
  split; [exact (proj2 (Hfail "no such table" eq_refl))|exact Hstmt].
Defined.

Lemma execute_call_deferred (d : Database) (query : string) :
  trace (execute_call d query)
  = statement_calls d query ++ deferred_calls d query false
  ∧ (∀ msg, first_error d query = Some msg ->
            outcome (execute_call d query) = Fail (DriverError msg))
  ∧ (first_error d query = None ->
     ∃ reader, stmt_ExecuteQuery d query = inr reader
       ∧ outcome (execute_call d query)
         = Return (rd_schema reader,
                   goroutine (fun rec => Some (mkChunk rec))
                             (rd_batches reader))).
Proof.
  unfold execute_call, statement_calls, deferred_calls, first_error,
    has_reader, has_statement, opened.
  unfold_call.
  destruct (db_Open d); [|destruct (conn_NewStatement d);
    [|destruct (stmt_SetSqlQuery d query);
      [|destruct (stmt_ExecuteQuery d query)]]]; cbn.
  all: split; [reflexivity|].
  all: split; [intros msg E; try discriminate E; now injection E as <-|].
  all: intros E; try discriminate E; eexists; split; reflexivity.
Qed.

(** X6: executing a registered handle, whatever the driver answers: the
    handler returns the message of the first call the driver refused, and
    only when none was refused a schema and a stream; before it returns it
    closes the statement if one was made and then the connection if it was
    opened, each once; it never releases the reader itself; and the server
    is left as it was. *)
Theorem DoGetStatement_driver_errors (s : DummyFlightSQLServer)
    (d : Database) (handle query : string) :
  queries s !! handle = Some query ->
  db s = Some d ->
  let call := snd (DoGetStatement s handle) in
  fst (DoGetStatement s handle) = s
  ∧ trace call = statement_calls d query ++ deferred_calls d query false
  ∧ count is_ConnectionClose (trace call) = once (opened d)
  ∧ count is_StatementClose (trace call) = once (has_statement d)
  ∧ count is_ReaderRelease (trace call) = 0%nat
  ∧ (∀ msg, first_error d query = Some msg ->
            outcome call = Fail (DriverError msg))
  ∧ (first_error d query = None ->
     ∃ reader, stmt_ExecuteQuery d query = inr reader
       ∧ outcome call
         = Return (rd_schema reader,
                   goroutine (fun rec => Some (mkChunk rec))
                             (rd_batches reader))).
Proof.
  intros Hq Hdb. cbv zeta.
  rewrite (DoGetStatement_registered s d handle query Hq Hdb). cbn [fst snd].
  destruct (execute_call_deferred d query) as (Htrace & Hfail & Hok).
  rewrite Htrace.
  destruct (statement_calls_no_close d query) as (_ & Hcc & Hsc & Hrr & _).
  destruct (deferred_calls_counts d query false) as (Dcc & Dsc & Drr & _).
  rewrite !count_app, Hcc, Hsc, Hrr, Dcc, Dsc, Drr.
  repeat split; try reflexivity; assumption.
Qed.

Lemma DoGetStatement_driver_errors_witness :
  outcome (snd (DoGetStatement
                  (mkServer (Some test_db) {["h" := "SELECT * FROM nowhere"]})
                  "h"))
  = Fail (DriverError "no such table")
  ∧ trace (snd (DoGetStatement
                  (mkServer (Some test_db) {["h" := "SELECT * FROM nowhere"]})
                  "h"))
    = [DatabaseOpen; ConnectionNewStatement;
       StatementSetSqlQuery "SELECT * FROM nowhere";
       StatementExecuteQuery "SELECT * FROM nowhere";
       StatementClose; ConnectionClose].
Proof.
  destruct (DoGetStatement_driver_errors
              (mkServer (Some test_db) {["h" := "SELECT * FROM nowhere"]})
              test_db "h" "SELECT * FROM nowhere"
              (lookup_singleton_eq _ _) eq_refl)
    as (_ & Htrace & _ & _ & _ & Hfail & _).
  split; [exact (Hfail "no such table" eq_refl)|exact Htrace].
Defined.

(** ** Servers without a database *)

(** X7: on a server without a database, the catalogs handler, the two
    describing handlers and the execution of a registered handle all
    return the error [database is not initialized], make no call to the
    driver, and leave the server, registry included, as it was; the
    describing handler does not even draw a handle into the registry. *)
Theorem nil_database_errors (s : DummyFlightSQLServer) :
  db s = None ->
  DoGetCatalogs s
  = (s, ([], Fail (Errorf "database is not initialized")))
  ∧ (∀ rnd query desc,
       GetFlightInfoStatement s rnd query desc
       = (s, ([], Fail (Errorf "database is not initialized"))))
  ∧ (∀ query desc,
       GetSchemaStatement s query desc
       = (s, ([], Fail (Errorf "database is not initialized"))))
  ∧ (∀ handle query, queries s !! handle = Some query ->
       DoGetStatement s handle
       = (s, ([], Fail (Errorf "database is not initialized"))))
  ∧ (∀ reqs, Forall (fun req => match req with
                                | ReqDoGetDBSchemas _ | ReqDoGetTables _ => False
                                | _ => True
                                end) reqs ->
             foldl serve s reqs = s).
Proof.
  intros Hdb.
  destruct (nil_database_reported s Hdb) as (_ & Hdescribe & Hprobe & Hexec).
  split; [unfold DoGetCatalogs; now rewrite Hdb|].
  split; [exact Hdescribe|]. split; [exact Hprobe|].
  split; [intros handle query Hq; apply Hexec; eauto|].
  intros reqs Hreqs. induction Hreqs as [|req reqs Hreq _ IH]; [reflexivity|].
  cbn. replace (serve s req) with s; [exact IH|].
  destruct (is_describe req) eqn:Hd.
  - destruct req; try discriminate Hd. cbn. now rewrite Hdescribe.
  - now rewrite serve_other_requests.
Qed.

Lemma nil_database_errors_witness :
  DoGetStatement (mkServer None {["test-handle" := "SELECT 1"]}) "test-handle"
  = (mkServer None {["test-handle" := "SELECT 1"]},
     ([], Fail (Errorf "database is not initialized"))).
Proof.
  destruct (nil_database_errors
              (mkServer None {["test-handle" := "SELECT 1"]}) eq_refl)
    as (_ & _ & _ & Hexec & _).
  exact (Hexec "test-handle" "SELECT 1" (lookup_singleton_eq _ _)).
Defined.

(** ** The goroutines behind the streams *)

Lemma count_cons (p : Event -> bool) (ev : Event) (t : list Event) :
  count p (ev :: t) = (once (p ev) + count p t)%nat.
Proof.
  unfold count. destruct (p ev) eqn:Hev.
  - now rewrite filter_cons_True.
  - rewrite filter_cons_False by (rewrite Hev; discriminate). reflexivity.
Qed.

Section GoroutineRuns.
Context {In : Type} (body : In -> option StreamChunk).

(** X8: the goroutine of a streaming handler, against a consumer that
    receives [recvs] times: the chunks received are those of the first
    batches of the reader, in the reader's order; there are never more of
    them than the consumer asked for; the reader is advanced exactly once
    more than chunks were received, so at most one batch is ever read
    ahead; and the run ends finished only after the last batch, parked
    only on a chunk the consumer did not take, crashed only on a batch
    whose chunk could not be built. *)
Theorem goroutine_delivers_in_order (batches : list In) (recvs : nat) :
  let r := goroutine body batches recvs in
  let n := length (run_received r) in
  (n <= recvs)%nat
  ∧ map body (take n batches) = map Some (run_received r)
  ∧ count is_ChanSend (run_events r) = n
  ∧ count is_ReaderNext (run_events r) = S n
  ∧ match run_end r with
    | Finished => n = length batches
    | BlockedOnSend =>
        n = recvs ∧ ∃ b c, batches !! n = Some b ∧ body b = Some c
    | Crashed => ∃ b, batches !! n = Some b ∧ body b = None
    end.
Proof.
  cbv zeta. revert recvs.
  induction batches as [|b batches IH]; intros recvs.
  - cbn. repeat split; lia.
  - cbn [goroutine]. destruct (body b) as [c|] eqn:Hb.
    + destruct recvs as [|recvs].
      * cbn. repeat split; try lia. exists b, c. now split.
      * destruct (IH recvs) as (Hle & Hmap & Hsend & Hnext & Hend).
        cbn [run_received run_events run_end length take map].
        split; [lia|]. split; [now rewrite Hb, Hmap|].
        split; [rewrite !count_cons, Hsend; reflexivity|].
        split; [rewrite !count_cons, Hnext; reflexivity|].
        destruct (run_end (goroutine body batches recvs)).
        -- now rewrite Hend.
        -- destruct Hend as [-> Hpend]. split; [reflexivity|exact Hpend].
        -- exact Hend.
    + cbn. repeat split; try lia. exists b. now split.
Qed.

(** X9: the deferred calls of the goroutine.  A run that is not parked in
    a send ends by releasing the reader and then closing the channel, each
    exactly once and not before; a parked run has done neither. *)
Theorem goroutine_releases_at_the_end (batches : list In) (recvs : nat) :
  let r := goroutine body batches recvs in
  match run_end r with
  | BlockedOnSend =>
      count is_ReaderRelease (run_events r) = 0%nat
      ∧ count is_ChanClose (run_events r) = 0%nat
  | _ =>
      ∃ before, run_events r = before ++ [ReaderRelease; ChanClose]
        ∧ count is_ReaderRelease before = 0%nat
        ∧ count is_ChanClose before = 0%nat
  end.
Proof.
  cbv zeta. revert recvs.
  induction batches as [|b batches IH]; intros recvs.
  - cbn. exists [ReaderNext false]. repeat split.
  - cbn [goroutine]. destruct (body b) as [c|] eqn:Hb.
    + destruct recvs as [|recvs]; [cbn; split; reflexivity|].
      specialize (IH recvs). cbn [run_end run_events].
      destruct (run_end (goroutine body batches recvs)).
      * destruct IH as (before & -> & Hr & Hc).
        exists (ReaderNext true :: ChanSend c :: before).
        rewrite !count_cons, Hr, Hc. repeat split.
      * exact IH.
      * destruct IH as (before & -> & Hr & Hc).
        exists (ReaderNext true :: ChanSend c :: before).
        rewrite !count_cons, Hr, Hc. repeat split.
    + cbn. exists [ReaderNext true]. repeat split.
Qed.
End GoroutineRuns.

(** ** Flattening at schema depth *)

Lemma DoGetDBSchemas_record_loops (schema : Schema) (rec : ObjectsBatch) :
  DoGetDBSchemas_record schema rec
  = (builders ← DoGetDBSchemas_loops rec;
     NewRecordBatch schema
       [StringArray (sb_catalogName builders);
        StringArray (sb_dbSchemaName builders)]
       (Z.of_nat (length (sb_catalogName builders)))).
Proof. reflexivity. Qed.

Lemma DoGetDBSchemas_loops_with_tables (rec : ObjectsBatch)
    (tables_offsets : list Z) (names types : list string) :
  DoGetDBSchemas_loops (with_tables rec tables_offsets names types)
  = DoGetDBSchemas_loops rec.
Proof. reflexivity. Qed.

Lemma extend_schemas_nil (b : SchemaBuilders) : extend_schemas b [] = b.
Proof. destruct b. unfold extend_schemas. cbn. now rewrite !app_nil_r. Qed.

Lemma extend_schemas_app (b : SchemaBuilders) (r1 r2 : list SchemaRow) :
  extend_schemas (extend_schemas b r1) r2 = extend_schemas b (r1 ++ r2).
Proof. unfold extend_schemas. cbn. now rewrite !map_app, !app_assoc. Qed.

Lemma foldl_extend_schemas {X : Type} (g : X -> list SchemaRow) (l : list X)
    (b : SchemaBuilders) :
  foldl (fun st x => extend_schemas st (g x)) b l
  = extend_schemas b (flat_map g l).
Proof.
  revert b. induction l as [|x l IH]; intros b; cbn.
  - now rewrite extend_schemas_nil.
  - now rewrite IH, extend_schemas_app.
Qed.

Lemma schema_names_body_row (t : ObjectTree) (catalogName : string)
    (p q : list DBSchema) (sch : DBSchema) (b : SchemaBuilders) :
  all_schemas t = p ++ sch :: q ->
  schema_names_body (layout t) catalogName (Z.of_nat (length p)) b
  = Some (extend_schemas b [mkSchemaRow catalogName (db_schema_name sch)]).
Proof.
  intros HS. unfold schema_names_body.
  now rewrite (layout_schema_name t p q sch HS).
Qed.

Lemma schema_catalogs_body_rows (t : ObjectTree) (p q : list Catalog)
    (c : Catalog) (b : SchemaBuilders) :
  t = p ++ c :: q ->
  schema_catalogs_body (layout t) (Z.of_nat (length p)) b
  = Some (extend_schemas b (schema_rows_of c)).
Proof.
  intros Ht. unfold schema_catalogs_body.
  rewrite (layout_catalog_name t p q c Ht), (layout_schemas_start t p q c Ht),
    (layout_schemas_end t p q c Ht).
  cbn [mbind option_bind].
  assert (Hbody : ∀ p' x q' st, all_schemas t = p' ++ x :: q' ->
            schema_names_body (layout t) (catalog_name c)
              (Z.of_nat (length p')) st
            = Some (extend_schemas st
                      [mkSchemaRow (catalog_name c) (db_schema_name x)]))
    by (intros p' x q' st HS; eapply schema_names_body_row; exact HS).
  rewrite (for_range_segment _
             (fun sch st => extend_schemas st
                              [mkSchemaRow (catalog_name c)
                                 (db_schema_name sch)])
             (all_schemas t) (catalog_db_schemas c)
             (all_schemas p) (all_schemas q) b Hbody).
  - rewrite (foldl_extend_schemas
               (fun sch => [mkSchemaRow (catalog_name c) (db_schema_name sch)])).
    unfold schema_rows_of. now rewrite flat_map_singletons.
  - rewrite Ht at 1. unfold all_schemas. rewrite flat_map_app. reflexivity.
Qed.

Lemma DoGetDBSchemas_loops_layout (t : ObjectTree) :
  DoGetDBSchemas_loops (layout t)
  = Some (extend_schemas (mkSchemaBuilders [] []) (schema_depth_rows t)).
Proof.
  unfold DoGetDBSchemas_loops.
  change (ob_num_rows (layout t)) with (Z.of_nat (length t)).
  unfold for_range.
  replace (Z.to_nat (Z.of_nat (length t) - 0)) with (length t) by lia.
  change 0 with (Z.of_nat (length (@nil Catalog))).
  assert (Hbody : ∀ p x q st, t = p ++ x :: q ->
            schema_catalogs_body (layout t) (Z.of_nat (length p)) st
            = Some (extend_schemas st (schema_rows_of x)))
    by (intros p x q st Ht; eapply schema_catalogs_body_rows; exact Ht).
  rewrite (for_steps_segment (schema_catalogs_body (layout t))
             (fun c st => extend_schemas st (schema_rows_of c)) t Hbody t [] []).
  - now rewrite (foldl_extend_schemas schema_rows_of).
  - cbn. now rewrite app_nil_r.
Qed.

Lemma NewRecordBatch_DBSchemas (c1 c2 : list string) :
  length c2 = length c1 ->
  NewRecordBatch schema_ref.DBSchemas [StringArray c1; StringArray c2]
    (Z.of_nat (length c1))
  = Some (mkRecordBatch schema_ref.DBSchemas [StringArray c1; StringArray c2]
            (Z.of_nat (length c1))).
Proof.
  intros H2. unfold NewRecordBatch, validate. cbn.
  destruct (Z.ltb_spec (Z.of_nat (length c1)) 0); [exfalso; lia|].
  rewrite H2, Z.ltb_irrefl.
  now destruct (Z.of_nat (length c1) =? 0).
Qed.

Lemma DoGetDBSchemas_record_layout (t : ObjectTree) (tables_offsets : list Z)
    (names types : list string) :
  DoGetDBSchemas_record schema_ref.DBSchemas
    (with_tables (layout t) tables_offsets names types)
  = Some (schema_rows_batch (schema_depth_rows t)).
Proof.
  rewrite DoGetDBSchemas_record_loops, DoGetDBSchemas_loops_with_tables,
    DoGetDBSchemas_loops_layout.
  cbn [mbind option_bind extend_schemas sb_catalogName sb_dbSchemaName app].
  rewrite NewRecordBatch_DBSchemas by now rewrite !length_map.
  unfold schema_rows_batch. now rewrite length_map.
Qed.

Lemma elem_of_schema_depth_rows (t : ObjectTree) (row : SchemaRow) :
  row ∈ schema_depth_rows t
  ↔ ∃ c sch, c ∈ t ∧ sch ∈ catalog_db_schemas c
       ∧ row = mkSchemaRow (catalog_name c) (db_schema_name sch).
Proof.
  unfold schema_depth_rows, schema_rows_of.
  repeat setoid_rewrite list_elem_of_In. rewrite in_flat_map. split.
  - intros (c & Hc & Hrow). apply in_map_iff in Hrow as (sch & <- & Hsch).
    exists c, sch. auto.
  - intros (c & sch & Hc & Hsch & ->).
    exists c. split; [exact Hc|]. apply in_map_iff. exists sch. auto.
Qed.

Lemma DoGetDBSchemas_chunk_layout (t : ObjectTree) :
  DoGetDBSchemas_chunk (layout t)
  = Some (mkChunk (schema_rows_batch (schema_depth_rows t))).
Proof.
  unfold DoGetDBSchemas_chunk.
  destruct (layout t) as [r cn so sn to tn tt] eqn:E.
  pose proof (DoGetDBSchemas_record_layout t to tn tt) as H.
  rewrite E in H. unfold with_tables in H. cbn in H. now rewrite H.
Qed.

Lemma DoGetDBSchemas_goroutine (trees : list ObjectTree) (recvs : nat) :
  (length trees <= recvs)%nat ->
  run_received (goroutine DoGetDBSchemas_chunk (map layout trees) recvs)
  = map (fun t => mkChunk (schema_rows_batch (schema_depth_rows t))) trees.
Proof.
  revert recvs. induction trees as [|t trees IH]; intros recvs Hle.
  - reflexivity.
  - destruct recvs as [|recvs]; cbn in Hle; [lia|].
    cbn [map goroutine]. rewrite DoGetDBSchemas_chunk_layout.
    cbn [run_received]. now rewrite IH by lia.
Qed.

(** X10: the batch the schemas handler builds from the layout of a tree
    (whatever table arrays lie below the schemas) holds, in order, one row
    per schema of the tree, with the name of the catalog holding it; their
    number, which the batch declares, is the sum of the schema counts of
    the catalogs; a catalog without schemas adds no row and changes no row
    of the catalogs around it; and a consumer reading the stream of
    [DoGetDBSchemas] to its end receives these batches, one per batch of
    the driver. *)
Theorem DoGetDBSchemas_flattens (t : ObjectTree) :
  (∀ tables_offsets names types,
     DoGetDBSchemas_record schema_ref.DBSchemas
       (with_tables (layout t) tables_offsets names types)
     = Some (schema_rows_batch (schema_depth_rows t)))
  ∧ DoGetDBSchemas_record schema_ref.DBSchemas (layout t)
    = Some (schema_rows_batch (schema_depth_rows t))
  ∧ rb_rows (schema_rows_batch (schema_depth_rows t))
    = Z.of_nat (schema_count t)
  ∧ (∀ row, row ∈ schema_depth_rows t
       ↔ ∃ c sch, c ∈ t ∧ sch ∈ catalog_db_schemas c
            ∧ row = mkSchemaRow (catalog_name c) (db_schema_name sch))
  ∧ (∀ before c after,
       t = before ++ c :: after -> catalog_db_schemas c = [] ->
       schema_depth_rows t = schema_depth_rows (before ++ after))
  ∧ (∀ (s : DummyFlightSQLServer) (d : Database) (cmd : GetDBSchemas)
       (trees : list ObjectTree),
       db s = Some d ->
       db_Open d = None ->
       conn_GetObjects d ObjectDepthDBSchemas (schemas_GetCatalog cmd)
         (schemas_GetDBSchemaFilterPattern cmd) None []
       = inr (map layout trees) ->
       ∃ ch, outcome (snd (DoGetDBSchemas s cmd))
             = Return (schema_ref.DBSchemas, ch)
         ∧ run_received (ch (length trees))
           = map (fun t => mkChunk (schema_rows_batch (schema_depth_rows t)))
                 trees).
Proof.
  split; [intros; apply DoGetDBSchemas_record_layout|].
  split.
  { destruct (layout t) as [r cn so sn to tn tt] eqn:E.
    pose proof (DoGetDBSchemas_record_layout t to tn tt) as H.
    rewrite E in H. exact H. }
  split.
  { cbn. f_equal. unfold schema_depth_rows, schema_count.
    rewrite length_flat_map_sum. apply sum_list_with_ext. intros c.
    unfold schema_rows_of. apply length_map. }
  split; [apply elem_of_schema_depth_rows|].
  split.
  { intros before c after -> Hc. unfold schema_depth_rows.
    rewrite !flat_map_app. cbn [flat_map]. unfold schema_rows_of at 2.
    now rewrite Hc. }
  intros s d cmd trees Hdb Ho Hg.
  unfold DoGetDBSchemas. rewrite Hdb. unfold_call. rewrite Ho, Hg. cbn.
  eexists. split; [reflexivity|].
  apply (DoGetDBSchemas_goroutine trees (length trees)). lia.
Qed.

Lemma DoGetDBSchemas_flattens_witness :
  DoGetDBSchemas_record schema_ref.DBSchemas (layout test_tree)
  = Some (mkRecordBatch schema_ref.DBSchemas
            [StringArray ["main"; "main"; "temp"];
             StringArray ["main"; "empty_schema"; "scratch"]] 3)
  ∧ schema_depth_rows test_tree
    = schema_depth_rows [mkCatalog "main"
                           [mkDBSchema "main" [mkTable "test_table" "table";
                                               mkTable "test_view" "view"];
                            mkDBSchema "empty_schema" []];
                         mkCatalog "temp"
                           [mkDBSchema "scratch" [mkTable "t" "table"]]].
Proof.
  destruct (DoGetDBSchemas_flattens test_tree)
    as (_ & Hrec & _ & _ & Hskip & _).
  split; [exact Hrec|].
  exact (Hskip [mkCatalog "main"
                  [mkDBSchema "main" [mkTable "test_table" "table";
                                      mkTable "test_view" "view"];
                   mkDBSchema "empty_schema" []]]
           (mkCatalog "empty_catalog" [])
           [mkCatalog "temp" [mkDBSchema "scratch" [mkTable "t" "table"]]]
           eq_refl eq_refl).
Defined.

(** ** What the metadata streams emit *)

Lemma goroutine_received_from {In : Type} (body : In -> option StreamChunk)
    (batches : list In) (recvs : nat) (c : StreamChunk) :
  c ∈ run_received (goroutine body batches recvs) ->
  ∃ b, b ∈ batches ∧ body b = Some c.
Proof.
  revert recvs. induction batches as [|b batches IH]; intros recvs; cbn.
  - intros Hin. now apply not_elem_of_nil in Hin.
  - destruct (body b) as [c'|] eqn:Hb; cbn.
    + destruct recvs as [|recvs]; cbn.
      * intros Hin. now apply not_elem_of_nil in Hin.
      * intros [->|Hin]%elem_of_cons.
        -- exists b. split; [left|exact Hb].
        -- destruct (IH recvs Hin) as (b' & Hb' & Hc).
           exists b'. split; [now right|exact Hc].
    + intros Hin. now apply not_elem_of_nil in Hin.
Qed.

Lemma NewRecordBatch_Some (schema : Schema) (cols : list Column) (nrows : Z)
    (r : RecordBatch) :
  NewRecordBatch schema cols nrows = Some r ->
  rb_schema r = schema ∧ rb_columns r = cols.
Proof.
  unfold NewRecordBatch.
  destruct (validate schema cols _); intros E; [|discriminate E].
  injection E as <-. split; reflexivity.
Qed.

Lemma DoGetTables_returns (s : DummyFlightSQLServer) (cmd : GetTables)
    (schema : Schema) (ch : Chan) :
  outcome (snd (DoGetTables s cmd)) = Return (schema, ch) ->
  schema = schema_ref.Tables
  ∧ ∃ batches, ch = goroutine DoGetTables_chunk batches.
Proof.
  unfold DoGetTables. destruct (db s) as [d|]; [|discriminate].
  unfold_call. driver_answers; intros Hret; try discriminate Hret.
  injection Hret as <- <-. split; [reflexivity|]. eexists. reflexivity.
Qed.

Lemma DoGetDBSchemas_returns (s : DummyFlightSQLServer) (cmd : GetDBSchemas)
    (schema : Schema) (ch : Chan) :
  outcome (snd (DoGetDBSchemas s cmd)) = Return (schema, ch) ->
  schema = schema_ref.DBSchemas
  ∧ ∃ batches, ch = goroutine DoGetDBSchemas_chunk batches.
Proof.
  unfold DoGetDBSchemas. destruct (db s) as [d|]; [|discriminate].
  unfold_call. driver_answers; intros Hret; try discriminate Hret.
  injection Hret as <- <-. split; [reflexivity|]. eexists. reflexivity.
Qed.

(** X11: whatever batches the driver reports, well formed or not, every
    chunk a consumer receives from the tables stream, or from the schemas
    stream, carries the schema the handler returned, which is also the one
    the matching [GetFlightInfo] handler announces; it has one string
    column per field of that schema; and all its columns have the length
    the batch declares. *)
Theorem metadata_chunks_match_schema (s : DummyFlightSQLServer)
    (desc : FlightDescriptor) (schema : Schema) (ch : Chan) (recvs : nat)
    (c : StreamChunk) :
  c ∈ run_received (ch recvs) ->
  (∀ cmd, outcome (snd (DoGetTables s cmd)) = Return (schema, ch) ->
     outcome (snd (GetFlightInfoTables s desc))
     = Return (mkFlightInfo (CommandTicket (desc_Cmd desc)) desc
                 (SerializeSchema schema))
     ∧ rb_schema (chunk_data c) = schema
     ∧ (∃ c1 c2 c3 c4, rb_columns (chunk_data c)
                       = [StringArray c1; StringArray c2;
                          StringArray c3; StringArray c4])
     ∧ aligned (chunk_data c))
  ∧ (∀ cmd, outcome (snd (DoGetDBSchemas s cmd)) = Return (schema, ch) ->
       outcome (snd (GetFlightInfoSchemas s desc))
       = Return (mkFlightInfo (CommandTicket (desc_Cmd desc)) desc
                   (SerializeSchema schema))
       ∧ rb_schema (chunk_data c) = schema
       ∧ (∃ c1 c2, rb_columns (chunk_data c)
                   = [StringArray c1; StringArray c2])
       ∧ aligned (chunk_data c)).
Proof.
  intros Hin. split; intros cmd Hret.
  - apply DoGetTables_returns in Hret as (-> & batches & ->).
    apply goroutine_received_from in Hin as (b & _ & Hb).
    unfold DoGetTables_chunk in Hb.
    destruct (DoGetTables_record schema_ref.Tables b) as [r|] eqn:Hr;
      [|discriminate Hb].
    injection Hb as <-. cbn [chunk_data].
    split; [reflexivity|].
    pose proof (DoGetTables_record_aligned _ _ _ Hr) as Hal.
    unfold DoGetTables_record in Hr.
    destruct (DoGetTables_loops b) as [builders|]; [|discriminate Hr].
    apply NewRecordBatch_Some in Hr as [Hs Hc].
    split; [exact Hs|]. split; [|exact Hal].
    rewrite Hc. eexists _, _, _, _. reflexivity.
  - apply DoGetDBSchemas_returns in Hret as (-> & batches & ->).
    apply goroutine_received_from in Hin as (b & _ & Hb).
    unfold DoGetDBSchemas_chunk in Hb.
    destruct (DoGetDBSchemas_record schema_ref.DBSchemas b) as [r|] eqn:Hr;
      [|discriminate Hb].
    injection Hb as <-. cbn [chunk_data].
    split; [reflexivity|].
    pose proof (DoGetDBSchemas_record_aligned _ _ _ Hr) as Hal.
    rewrite DoGetDBSchemas_record_loops in Hr.
    destruct (DoGetDBSchemas_loops b) as [builders|]; [|discriminate Hr].
    apply NewRecordBatch_Some in Hr as [Hs Hc].
    split; [exact Hs|]. split; [|exact Hal].
    rewrite Hc. eexists _, _. reflexivity.
Qed.

Lemma metadata_chunks_match_schema_witness :
  aligned (rows_batch (table_rows test_tree))
  ∧ rb_schema (rows_batch (table_rows test_tree)) = schema_ref.Tables.
Proof.
  destruct (metadata_chunks_match_schema test_server test_desc
              schema_ref.Tables (goroutine DoGetTables_chunk [layout test_tree])
              1%nat (mkChunk (rows_batch (table_rows test_tree))))
    as [Htables _].
  - cbn. left.
  - destruct (Htables (mkGetTables None None None []) eq_refl)
      as (_ & Hs & _ & Hal).
    split; [exact Hal|exact Hs].
Defined.

(** X12: the streaming metadata handlers, whatever the driver answers: a
    refused [Open] is returned as it is and nothing else is called; after
    a granted [Open] the driver is asked once for the objects, at the depth
    of the handler and with the filters of the request unchanged, and the
    connection is closed before the handler returns, either the message of
    the driver or the schema with the stream over the batches reported. *)
Theorem metadata_streams_driver_errors (s : DummyFlightSQLServer)
    (d : Database) :
  db s = Some d ->
  (∀ cmd : GetTables,
     let asked := ConnectionGetObjects ObjectDepthTables (GetCatalog cmd)
                    (GetDBSchemaFilterPattern cmd)
                    (GetTableNameFilterPattern cmd) (GetTableTypes cmd) in
     DoGetTables s cmd
     = (s,
        match db_Open d with
        | Some msg => ([DatabaseOpen], Fail (DriverError msg))
        | None =>
            ([DatabaseOpen; asked; ConnectionClose],
             match conn_GetObjects d ObjectDepthTables (GetCatalog cmd)
                     (GetDBSchemaFilterPattern cmd)
                     (GetTableNameFilterPattern cmd) (GetTableTypes cmd) with
             | inl msg => Fail (DriverError msg)
             | inr batches =>
                 Return (schema_ref.Tables, goroutine DoGetTables_chunk batches)
             end)
        end))
  ∧ (∀ cmd : GetDBSchemas,
       let asked := ConnectionGetObjects ObjectDepthDBSchemas
                      (schemas_GetCatalog cmd)
                      (schemas_GetDBSchemaFilterPattern cmd) None [] in
       DoGetDBSchemas s cmd
       = (s,
          match db_Open d with
          | Some msg => ([DatabaseOpen], Fail (DriverError msg))
          | None =>
              ([DatabaseOpen; asked; ConnectionClose],
               match conn_GetObjects d ObjectDepthDBSchemas
                       (schemas_GetCatalog cmd)
                       (schemas_GetDBSchemaFilterPattern cmd) None [] with
               | inl msg => Fail (DriverError msg)
               | inr batches =>
                   Return (schema_ref.DBSchemas,
                           goroutine DoGetDBSchemas_chunk batches)
               end)
          end)).
Proof.
  intros Hdb. split; intros cmd; cbv zeta.
  - unfold DoGetTables. rewrite Hdb. unfold_call.
    destruct (db_Open d); [reflexivity|]. cbn.
    now destruct (conn_GetObjects d _ _ _ _ _).
  - unfold DoGetDBSchemas. rewrite Hdb. unfold_call.
    destruct (db_Open d); [reflexivity|]. cbn.
    now destruct (conn_GetObjects d _ _ _ _ _).
Qed.

Lemma metadata_streams_driver_errors_witness :
  trace (snd (DoGetTables test_server
                (mkGetTables None (Some "main") (Some "test%") ["table"])))
  = [DatabaseOpen;
     ConnectionGetObjects ObjectDepthTables None (Some "main") (Some "test%")
       ["table"];
     ConnectionClose].
Proof.
  rewrite (proj1 (metadata_streams_driver_errors test_server test_db eq_refl)
             (mkGetTables None (Some "main") (Some "test%") ["table"])).
  reflexivity.
Defined.

(** ** Batches that are not well formed *)

Lemma slice_index_Some {A : Type} (l : list A) (i : Z) (x : A) :
  slice_index l i = Some x -> 0 <= i < Z.of_nat (length l).
Proof.
  unfold slice_index. destruct (Z.ltb_spec i 0); [discriminate|].
  intros Hl. apply lookup_lt_Some in Hl. lia.
Qed.

Lemma for_steps_reaches {S : Type} (body : Z -> S -> option S) (n : nat)
    (i : Z) (st st' : S) :
  for_steps body i n st = Some st' ->
  ∀ k, (k < n)%nat -> ∃ a a', body (i + Z.of_nat k) a = Some a'.
Proof.
  revert i st. induction n as [|n IH]; intros i st Hrun k Hk; [lia|].
  cbn in Hrun. destruct (body i st) as [st1|] eqn:Hb; [|discriminate Hrun].
  destruct k as [|k].
  - exists st, st1. now rewrite Z.add_0_r.
  - destruct (IH _ _ Hrun k ltac:(lia)) as (a & a' & Ha).
    exists a, a'. rewrite <- Ha. f_equal. lia.
Qed.

Lemma for_range_reaches {S : Type} (body : Z -> S -> option S)
    (lo hi : Z) (st st' : S) (i : Z) :
  for_range lo hi body st = Some st' ->
  lo <= i < hi -> ∃ a a', body i a = Some a'.
Proof.
  unfold for_range. intros Hrun Hi.
  destruct (for_steps_reaches body _ _ _ _ Hrun (Z.to_nat (i - lo))
              ltac:(lia)) as (a & a' & Ha).
  exists a, a'. rewrite <- Ha. f_equal. lia.
Qed.

Lemma records_in_bounds (schema : Schema) (rec : ObjectsBatch)
    (r : RecordBatch) (i : Z) :
  DoGetTables_record schema rec = Some r
  ∨ DoGetDBSchemas_record schema rec = Some r ->
  0 <= i < ob_num_rows rec ->
  i < Z.of_nat (length (ob_catalog_name rec))
  ∧ i + 1 < Z.of_nat (length (ob_schemas_offsets rec))
  ∧ ∃ start end_,
      slice_index (ob_schemas_offsets rec) i = Some start
      ∧ slice_index (ob_schemas_offsets rec) (i + 1) = Some end_
      ∧ ∀ j, start <= j < end_ ->
             0 <= j < Z.of_nat (length (ob_schema_name rec)).
Proof.
  intros [Hr|Hr] Hi.
  - unfold DoGetTables_record in Hr.
    destruct (DoGetTables_loops rec) as [b|] eqn:Hloops; [|discriminate Hr].
    rewrite DoGetTables_loops_bodies in Hloops.
    destruct (for_range_reaches _ _ _ _ _ i Hloops Hi) as (a & a' & Ha).
    unfold catalogs_body in Ha.
    destruct (slice_index (ob_catalog_name rec) i) as [cn|] eqn:Hcn;
      [|discriminate Ha].
    destruct (slice_index (ob_schemas_offsets rec) i) as [start|] eqn:Hs;
      [|discriminate Ha].
    destruct (slice_index (ob_schemas_offsets rec) (i + 1)) as [end_|] eqn:He;
      [|discriminate Ha].
    cbn in Ha. apply slice_index_Some in Hcn.
    pose proof (slice_index_Some _ _ _ He) as He'.
    split; [lia|]. split; [lia|]. exists start, end_.
    split; [reflexivity|]. split; [reflexivity|].
    intros j Hj.
    destruct (for_range_reaches _ _ _ _ _ j Ha Hj) as (c & c' & Hc).
    unfold schemas_body in Hc.
    destruct (slice_index (ob_schema_name rec) j) as [sn|] eqn:Hsn;
      [|discriminate Hc].
    now apply slice_index_Some in Hsn.
  - rewrite DoGetDBSchemas_record_loops in Hr.
    destruct (DoGetDBSchemas_loops rec) as [b|] eqn:Hloops; [|discriminate Hr].
    unfold DoGetDBSchemas_loops in Hloops.
    destruct (for_range_reaches _ _ _ _ _ i Hloops Hi) as (a & a' & Ha).
    unfold schema_catalogs_body in Ha.
    destruct (slice_index (ob_catalog_name rec) i) as [cn|] eqn:Hcn;
      [|discriminate Ha].
    destruct (slice_index (ob_schemas_offsets rec) i) as [start|] eqn:Hs;
      [|discriminate Ha].
    destruct (slice_index (ob_schemas_offsets rec) (i + 1)) as [end_|] eqn:He;
      [|discriminate Ha].
    cbn in Ha. apply slice_index_Some in Hcn.
    pose proof (slice_index_Some _ _ _ He) as He'.
    split; [lia|]. split; [lia|]. exists start, end_.
    split; [reflexivity|]. split; [reflexivity|].
    intros j Hj.
    destruct (for_range_reaches _ _ _ _ _ j Ha Hj) as (c & c' & Hc).
    unfold schema_names_body in Hc.
    destruct (slice_index (ob_schema_name rec) j) as [sn|] eqn:Hsn;
      [|discriminate Hc].
    now apply slice_index_Some in Hsn.
Qed.

(** X13: the flattening loops index their arrays unchecked, and an index
    out of range is a panic, not a read of foreign data.  Whenever the
    tables handler, or the schemas handler, builds a batch at all, every
    catalog row it was told to visit has a name and both its offsets, and
    every schema position it walked has a name.  And a batch that declares
    more rows than it has catalog names, or than its offsets allow, makes
    the goroutine of either stream crash on it: no chunk is sent for it,
    and the deferred calls release the reader and close the channel. *)
Theorem flattening_stays_in_bounds (schema : Schema) (rec : ObjectsBatch) :
  (∀ r i,
     DoGetTables_record schema rec = Some r
     ∨ DoGetDBSchemas_record schema rec = Some r ->
     0 <= i < ob_num_rows rec ->
     i < Z.of_nat (length (ob_catalog_name rec))
     ∧ i + 1 < Z.of_nat (length (ob_schemas_offsets rec))
     ∧ ∃ start end_,
         slice_index (ob_schemas_offsets rec) i = Some start
         ∧ slice_index (ob_schemas_offsets rec) (i + 1) = Some end_
         ∧ ∀ j, start <= j < end_ ->
                0 <= j < Z.of_nat (length (ob_schema_name rec)))
  ∧ (0 < ob_num_rows rec ->
     Z.of_nat (length (ob_catalog_name rec)) < ob_num_rows rec
     ∨ Z.of_nat (length (ob_schemas_offsets rec)) <= ob_num_rows rec ->
     ∀ rest recvs,
       goroutine DoGetTables_chunk (rec :: rest) recvs
       = mkRun [ReaderNext true; ReaderRelease; ChanClose] [] Crashed
       ∧ goroutine DoGetDBSchemas_chunk (rec :: rest) recvs
         = mkRun [ReaderNext true; ReaderRelease; ChanClose] [] Crashed).
Proof.
  split; [intros r i; apply records_in_bounds|].
  intros Hrows Hshort rest recvs.
  assert (Hnone : ∀ schema', DoGetTables_record schema' rec = None
                             ∧ DoGetDBSchemas_record schema' rec = None).
  { intros schema'. split.
    - destruct (DoGetTables_record schema' rec) as [r|] eqn:Hr; [|reflexivity].
      destruct (records_in_bounds schema' rec r (ob_num_rows rec - 1)
                  (or_introl Hr) ltac:(lia)) as (Hn & Ho & _). lia.
    - destruct (DoGetDBSchemas_record schema' rec) as [r|] eqn:Hr;
        [|reflexivity].
      destruct (records_in_bounds schema' rec r (ob_num_rows rec - 1)
                  (or_intror Hr) ltac:(lia)) as (Hn & Ho & _). lia. }
  cbn [goroutine]. unfold DoGetTables_chunk, DoGetDBSchemas_chunk.
  destruct (Hnone schema_ref.Tables) as [-> _].
  destruct (Hnone schema_ref.DBSchemas) as [_ ->].
  split; reflexivity.
Qed.

Lemma flattening_stays_in_bounds_witness :
  (2 < Z.of_nat (length (ob_catalog_name (layout test_tree)))
   ∧ 2 + 1 < Z.of_nat (length (ob_schemas_offsets (layout test_tree))))
  ∧ run_end (goroutine DoGetTables_chunk
               [mkObjectsBatch 2 ["main"] [0; 0] [] [0] [] []] 5%nat)
    = Crashed.
Proof.
  split.
  - destruct (proj1 (flattening_stays_in_bounds schema_ref.Tables
                       (layout test_tree))
                (rows_batch (table_rows test_tree)) 2
                (or_introl (DoGetTables_record_layout test_tree))
                ltac:(cbn; lia))
      as (Hn & Ho & _).
    split; [exact Hn|exact Ho].
  - destruct (proj2 (flattening_stays_in_bounds schema_ref.Tables
                       (mkObjectsBatch 2 ["main"] [0; 0] [] [0] [] []))
                ltac:(cbn; lia) ltac:(left; cbn; lia) [] 5%nat)
      as [Hcrash _].
    now rewrite Hcrash.
Defined.


Lemma for_steps_fixed {St : Type} (body : Z -> St -> option St) (n : nat)
    (i : Z) (st : St) :
  (∀ k, (k < n)%nat -> body (i + Z.of_nat k) st = Some st) ->
  for_steps body i n st = Some st.
Proof.
  revert i. induction n as [|n IH]; intros i Hbody; [reflexivity|].
  cbn. pose proof (Hbody 0%nat ltac:(lia)) as H0.
  rewrite Z.add_0_r in H0. rewrite H0. apply IH.
  intros k Hk. rewrite <- (Hbody (S k) ltac:(lia)). f_equal. lia.
Qed.

Lemma for_range_fixed {St : Type} (body : Z -> St -> option St) (lo hi : Z)
    (st : St) :
  (∀ i, lo <= i < hi -> body i st = Some st) ->
  for_range lo hi body st = Some st.
Proof.
  intros Hbody. unfold for_range. apply for_steps_fixed.
  intros k Hk. apply Hbody. lia.
Qed.

Lemma for_range_none {St : Type} (body : Z -> St -> option St) (lo hi : Z)
    (st : St) :
  hi <= lo -> for_range lo hi body st = Some st.
Proof.
  intros Hle. apply for_range_fixed. intros i Hi. lia.
Qed.

(** X14: a range that does not increase is taken as empty, also when it
    decreases: for a batch in which every catalog row visited has a name
    and an end offset not above its start offset, both flattening handlers
    build the batch without rows, without any error. *)
Theorem ranges_not_increasing_emit_nothing (rec : ObjectsBatch) :
  (∀ i, 0 <= i < ob_num_rows rec ->
     ∃ name start end_,
       slice_index (ob_catalog_name rec) i = Some name
       ∧ slice_index (ob_schemas_offsets rec) i = Some start
       ∧ slice_index (ob_schemas_offsets rec) (i + 1) = Some end_
       ∧ end_ <= start) ->
  DoGetTables_record schema_ref.Tables rec = Some (rows_batch [])
  ∧ DoGetDBSchemas_record schema_ref.DBSchemas rec
    = Some (schema_rows_batch []).
Proof.
  intros Hrows. split.
  - unfold DoGetTables_record. rewrite DoGetTables_loops_bodies.
    rewrite for_range_fixed; [reflexivity|].
    intros i Hi. destruct (Hrows i Hi) as (name & start & end_ & Hn & Hs & He & Hle).
    unfold catalogs_body. rewrite Hn, Hs, He. cbn [mbind option_bind].
    now apply for_range_none.
  - rewrite DoGetDBSchemas_record_loops. unfold DoGetDBSchemas_loops.
    rewrite for_range_fixed; [reflexivity|].
    intros i Hi. destruct (Hrows i Hi) as (name & start & end_ & Hn & Hs & He & Hle).
    unfold schema_catalogs_body. rewrite Hn, Hs, He. cbn [mbind option_bind].
    now apply for_range_none.
Qed.

Lemma ranges_not_increasing_emit_nothing_witness :
  DoGetDBSchemas_record schema_ref.DBSchemas
    (mkObjectsBatch 1 ["main"] [3; 1] ["a"; "b"; "c"] [0; 0; 0; 0] [] [])
  = Some (mkRecordBatch schema_ref.DBSchemas
            [StringArray []; StringArray []] 0).
Proof.
  refine (proj2 (ranges_not_increasing_emit_nothing
                   (mkObjectsBatch 1 ["main"] [3; 1] ["a"; "b"; "c"]
                      [0; 0; 0; 0] [] []) _)).
  intros i Hi. cbn in Hi. assert (i = 0) as -> by lia.
  exists "main", 3, 1. cbn. repeat split. lia.
Defined.

(** ** The catalogs handler *)

(** X15: the catalogs handler fills a channel with room for one chunk
    before anybody can receive from it.  With no batch or one batch from the
    driver it returns the schema and the closed channel, holding one chunk
    per batch with the catalog column of the batch, and the connection is
    closed; with two batches or more the second send never completes: the
    handler does not return, and neither the channel nor the connection is
    ever closed. *)
Theorem DoGetCatalogs_returns_or_hangs (s : DummyFlightSQLServer)
    (d : Database) (batches : list ObjectsBatch) :
  db s = Some d ->
  db_Open d = None ->
  conn_GetObjects d ObjectDepthCatalogs None None None [] = inr batches ->
  snd (DoGetCatalogs s)
  = match batches with
    | [] =>
        ([DatabaseOpen; asked_catalogs; ReaderNext false; ChanClose;
          ConnectionClose],
         Return (schema_ref.Catalogs, []))
    | [rec] =>
        ([DatabaseOpen; asked_catalogs; ReaderNext true;
          ChanSend (catalog_chunk rec); ReaderNext false; ChanClose;
          ConnectionClose],
         Return (schema_ref.Catalogs, [catalog_chunk rec]))
    | rec :: _ :: _ =>
        ([DatabaseOpen; asked_catalogs; ReaderNext true;
          ChanSend (catalog_chunk rec); ReaderNext true],
         Hang)
    end.
Proof.
  intros Hdb Ho Hg. unfold DoGetCatalogs. rewrite Hdb. unfold_call.
  rewrite Ho. cbn. unfold asked_catalogs. rewrite Hg.
  destruct batches as [|rec1 [|rec2 rest]]; cbn [DoGetCatalogs_loop].
  - reflexivity.
  - unfold_call. rewrite DoGetCatalogs_record_rows. reflexivity.
  - unfold_call. rewrite !DoGetCatalogs_record_rows. reflexivity.
Qed.

Lemma DoGetCatalogs_returns_or_hangs_witness :
  outcome (snd (DoGetCatalogs
                  (mkServer (Some (mkDatabase None None (fun _ => None)
                                     (fun _ => inl "no statement")
                                     (fun _ _ _ _ _ =>
                                        inr [layout test_tree;
                                             layout test_tree])))
                            ∅)))
  = Hang.
Proof.
  rewrite (DoGetCatalogs_returns_or_hangs
             (mkServer (Some (mkDatabase None None (fun _ => None)
                                (fun _ => inl "no statement")
                                (fun _ _ _ _ _ =>
                                   inr [layout test_tree; layout test_tree])))
                       ∅)
             _ [layout test_tree; layout test_tree] eq_refl eq_refl eq_refl).
  reflexivity.
Defined.

Lemma DoGetCatalogs_loop_no_release (schema : Schema)
    (batches : list ObjectsBatch) (buffered : list StreamChunk) :
  count is_ReaderRelease
    (trace (DoGetCatalogs_loop schema batches buffered)) = 0%nat.
Proof.
  revert buffered. induction batches as [|rec rest IH]; intros buffered.
  - reflexivity.
  - cbn [DoGetCatalogs_loop]. unfold_call.
    destruct (DoGetCatalogs_record schema rec) as [record|]; [|reflexivity].
    match goal with
    | |- context [if ?c then _ else _] => destruct c; [|reflexivity]
    end.
    specialize (IH (buffered ++ [mkChunk record])). unfold trace in IH.
    destruct (DoGetCatalogs_loop schema rest (buffered ++ [mkChunk record]))
      as [t o].
    cbn in *. destruct o; cbn; exact IH.
Qed.

(** X16: on no path does the catalogs handler release the reader it got
    from the driver; a refused [Open] is returned as it is, with nothing
    to close; a refused request for the objects is returned after the
    connection was closed. *)
Theorem DoGetCatalogs_never_releases (s : DummyFlightSQLServer) :
  count is_ReaderRelease (trace (snd (DoGetCatalogs s))) = 0%nat
  ∧ fst (DoGetCatalogs s) = s
  ∧ (∀ d msg, db s = Some d -> db_Open d = Some msg ->
       snd (DoGetCatalogs s) = ([DatabaseOpen], Fail (DriverError msg)))
  ∧ (∀ d msg, db s = Some d -> db_Open d = None ->
       conn_GetObjects d ObjectDepthCatalogs None None None [] = inl msg ->
       snd (DoGetCatalogs s)
       = ([DatabaseOpen; asked_catalogs; ConnectionClose],
          Fail (DriverError msg))).
Proof.
  split; [|split; [|split]].
  - unfold DoGetCatalogs. destruct (db s) as [d|]; [|reflexivity].
    cbn [snd]. unfold_call.
    destruct (db_Open d); [reflexivity|]. cbn.
    destruct (conn_GetObjects d _ _ _ _ _) as [msg|batches]; [reflexivity|].
    cbn.
    pose proof (DoGetCatalogs_loop_no_release schema_ref.Catalogs batches [])
      as Hloop.
    unfold trace in Hloop.
    destruct (DoGetCatalogs_loop schema_ref.Catalogs batches []) as [t o].
    cbn -[count] in *.
    destruct o; cbn -[count];
      rewrite ?count_cons, ?count_app, ?count_cons, ?Hloop; reflexivity.
  - unfold DoGetCatalogs. now destruct (db s).
  - intros d msg Hdb Ho. unfold DoGetCatalogs. rewrite Hdb. unfold_call.
    now rewrite Ho.
  - intros d msg Hdb Ho Hg. unfold DoGetCatalogs. rewrite Hdb. unfold_call.
    rewrite Ho. cbn. now rewrite Hg.
Qed.

Lemma DoGetCatalogs_never_releases_witness :
  snd (DoGetCatalogs
         (mkServer (Some (mkDatabase (Some "unable to open database file")
                            None (fun _ => None) (fun _ => inl "")
                            (fun _ _ _ _ _ => inr [])))
                   ∅))
  = ([DatabaseOpen], Fail (DriverError "unable to open database file")).
Proof.
  destruct (DoGetCatalogs_never_releases
              (mkServer (Some (mkDatabase (Some "unable to open database file")
                                 None (fun _ => None) (fun _ => inl "")
                                 (fun _ _ _ _ _ => inr [])))
                        ∅))
    as (_ & _ & Hopen & _).
  exact (Hopen _ "unable to open database file" eq_refl eq_refl).
Defined.

(** ** The example programs *)

Lemma for_steps_counted {St : Type} (P : nat -> St -> Prop)
    (body : Z -> St -> option St) :
  (∀ k i st st', P k st -> body i st = Some st' -> P (Datatypes.S k) st') ->
  ∀ n i st st', P 0%nat st -> for_steps body i n st = Some st' -> P n st'.
Proof.
  intros Hbody n. 
  assert (Hgen : ∀ k i st st', P k st -> for_steps body i n st = Some st' ->
                 P (k + n)%nat st').
  { induction n as [|n IH]; intros k i st st' HP Hrun; cbn in Hrun.
    - injection Hrun as <-. now rewrite Nat.add_0_r.
    - destruct (body i st) as [st1|] eqn:Hb; [|discriminate Hrun].
      replace (k + Datatypes.S n)%nat with (Datatypes.S k + n)%nat by lia.
      exact (IH _ _ _ _ (Hbody _ _ _ _ HP Hb) Hrun). }
  intros i st st' HP Hrun. exact (Hgen 0%nat i st st' HP Hrun).
Qed.

(** X17: the two example programs read both bounds of a catalog's schema
    range from the same offset, so the loop that would print schema names
    never runs.  Over any batch the Flight SQL client example prints
    nothing at all (and it gets through the batch whenever the batch has an
    offset for every row); the DuckDB example prints exactly one row line
    per catalog row and no schema name. *)
Theorem examples_print_no_schema_name (rec : ObjectsBatch)
    (out : list Printed) :
  (∀ out', flightsql_client_batch rec out = Some out' -> out' = out)
  ∧ (ob_num_rows rec <= Z.of_nat (length (ob_schemas_offsets rec)) ->
     flightsql_client_batch rec out = Some out)
  ∧ (∀ out', duckdb_example_batch rec out = Some out' ->
       ∃ printed, out' = out ++ printed
         ∧ forallb is_PrintfRow printed = true
         ∧ length printed = Z.to_nat (ob_num_rows rec)).
Proof.
  split; [|split].
  - intros out'. unfold flightsql_client_batch.
    apply (for_range_invariant (fun st => st = out)); [|reflexivity].
    intros i st st' -> Hb.
    destruct (slice_index (ob_schemas_offsets rec) i) as [start|];
      [|discriminate Hb].
    cbn in Hb. rewrite for_range_none in Hb by lia. now injection Hb.
  - intros Hrows. unfold flightsql_client_batch.
    apply for_range_fixed. intros i Hi.
    unfold slice_index. destruct (Z.ltb_spec i 0); [lia|].
    destruct (ob_schemas_offsets rec !! Z.to_nat i) as [start|] eqn:Hs.
    + cbn. apply for_range_none. lia.
    + apply lookup_ge_None in Hs. lia.
  - intros out'. unfold duckdb_example_batch, for_range. rewrite Z.sub_0_r.
    apply (for_steps_counted
             (fun k st => ∃ printed, st = out ++ printed
                            ∧ forallb is_PrintfRow printed = true
                            ∧ length printed = k)).
    + intros k i st st' (printed & -> & Hall & Hlen) Hb.
      destruct (slice_index (ob_catalog_name rec) i) as [nameVal|];
        [|discriminate Hb].
      destruct (slice_index (ob_schemas_offsets rec) i) as [start|];
        [|discriminate Hb].
      cbn in Hb. rewrite Z.sub_diag in Hb. cbn in Hb.
      injection Hb as <-. exists (printed ++ [PrintfRow i nameVal]).
      split; [now rewrite app_assoc|].
      split; [rewrite forallb_app, Hall; reflexivity|].
      rewrite length_app. cbn. lia.
    + exists []. rewrite app_nil_r. repeat split.
Qed.

Lemma examples_print_no_schema_name_witness :
  flightsql_client_batch (layout test_tree) [] = Some []
  ∧ duckdb_example_batch (layout test_tree) []
    = Some [PrintfRow 0 "main"; PrintfRow 1 "empty_catalog";
            PrintfRow 2 "temp"].
Proof.
  split; [|reflexivity].
  apply (proj1 (proj2 (examples_print_no_schema_name (layout test_tree) []))).
  cbn. lia.
Defined.

(** ** Describing, then executing *)

Lemma first_error_None (d : Database) (text : string) :
  first_error d text = None ->
  db_Open d = None ∧ conn_NewStatement d = None
  ∧ stmt_SetSqlQuery d text = None
  ∧ ∃ reader, stmt_ExecuteQuery d text = inr reader.
Proof.
  unfold first_error.
  destruct (db_Open d); [discriminate|].
  destruct (conn_NewStatement d); [discriminate|].
  destruct (stmt_SetSqlQuery d text); [discriminate|].
  destruct (stmt_ExecuteQuery d text) as [|reader]; [discriminate|].
  intros _. repeat split. now exists reader.
Qed.

(** X18: the two round trips of a query.  When the driver accepts both the
    rewritten text and the text itself, describing the text returns a
    ticket for the new handle, and executing that handle on the server
    the description left behind returns the schema of the driver's reader
    for the text and a stream from which a consumer making [recvs]
    receives gets the first [recvs] batches of that reader, unchanged and
    in order: all of them, and then the end of the stream, once [recvs]
    reaches their number. *)
Theorem describe_then_execute (s : DummyFlightSQLServer) (d : Database)
    (handleBytes : list byte) (T : string) (desc : FlightDescriptor)
    (executed : RecordReader) :
  db s = Some d ->
  first_error d (schemaQuery T) = None ->
  first_error d T = None ->
  stmt_ExecuteQuery d T = inr executed ->
  let described := GetFlightInfoStatement s (RandFilled handleBytes) T desc in
  let handle := EncodeToString handleBytes in
  ∃ fi ch,
    outcome (snd described) = Return fi
    ∧ fi_Ticket fi = StatementQueryTicket handle
    ∧ DoGetStatement (fst described) handle
      = (fst described,
         (execute_trace T, Return (rd_schema executed, ch)))
    ∧ ∀ recvs,
        run_received (ch recvs)
        = map mkChunk (take recvs (rd_batches executed))
        ∧ ((length (rd_batches executed) <= recvs)%nat ->
           run_end (ch recvs) = Finished
           ∧ run_received (ch recvs) = map mkChunk (rd_batches executed)).
Proof.
  intros Hdb Hprobe Hexec He. cbv zeta.
  apply first_error_None in Hexec as (Ho & Hn & Hset & _).
  rewrite (GetFlightInfoStatement_probe s d) by exact Hdb.
  destruct (probe_call_deferred d T
              (fun schema => mkFlightInfo
                 (StatementQueryTicket (EncodeToString handleBytes))
                 desc (SerializeSchema schema)))
    as (_ & _ & Hok).
  destruct (Hok Hprobe) as [fi Hfi].
  pose proof (probe_call_success d T _ fi Hfi) as (_ & reader & _ & Hfi').
  exists fi. eexists. split; [exact Hfi|].
  split; [now rewrite Hfi'|].
  split.
  - rewrite (DoGetStatement_registered _ d _ T).
    + now rewrite (execute_call_accepted d T executed Ho Hn Hset He).
    + rewrite (describe_server s d) by exact Hdb. apply lookup_insert_eq.
    + rewrite (describe_server s d) by exact Hdb. exact Hdb.
  - intros recvs.
    destruct (le_lt_dec (length (rd_batches executed)) recvs) as [Hle|Hlt].
    + rewrite goroutine_exhausted by exact Hle. cbn [run_received run_end].
      rewrite take_ge by exact Hle. repeat split.
    + rewrite goroutine_stopped by exact Hlt. cbn [run_received].
      split; [reflexivity|]. intros Hle. lia.
Qed.

Lemma describe_then_execute_witness :
  ∃ ch,
    DoGetStatement described_server zero_handle
    = (described_server,
       (execute_trace test_query, Return (test_schema, ch)))
    ∧ run_received (ch 1%nat) = [mkChunk test_batch1]
    ∧ run_received (ch 3%nat) = [mkChunk test_batch1; mkChunk test_batch2]
    ∧ run_end (ch 3%nat) = Finished.
Proof.
  destruct (describe_then_execute test_server test_db zero_bytes test_query
              test_desc (mkReader test_schema [test_batch1; test_batch2])
              eq_refl eq_refl eq_refl eq_refl)
    as (fi & ch & _ & _ & Hexec & Hruns).
  exists ch. split; [exact Hexec|].
  split; [exact (proj1 (Hruns 1%nat))|].
  destruct (proj2 (Hruns 3%nat)) as [Hend Hall]; [cbn; lia|].
  split; [exact Hall|exact Hend].
Defined.
